(** * The retrieveDocs pipeline of the FileSearch MCP server

    A shallow embedding of [src/server.ts] (with the interfaces of
    [types.ts]): the error classifier [toMcpError], the chunk extraction
    of the success path, the backoff computation and the retry loop of the
    [execute] function of the [retrieveDocs] tool; then [loadConfig] of
    [src/config.ts] and the start-up function [main].

    Conventions of the embedding.
    - JavaScript values have the TypeScript types the source declares for
      them: an [Error] is a record with a string [name] and a string
      [message]; a [SearchResultItem] has three optional fields; a parsed
      response body is an [OpenAiFileSearchResponse].
    - A JavaScript number that is computed with (a [Math.random()] draw,
      the jitter, the delay) is a binary64 float, with the operations of
      the IEEE 754 specification of the library ([SpecFloat], precision
      53, maximal exponent 1024); a relevance score is only carried
      around and is a rational; an HTTP status is a natural number.
    - The outside of the function is an oracle, the [Host]: what the n-th
      [fetch] call does, what the n-th [Math.random()] call returns, how
      the runtime prints a number in base 36.
    - Effects are threaded through a state monad whose state holds the
      number of random draws consumed so far and the trace of observable
      events (HTTP calls, backoff sleeps, [console.error] lines).
    - A thrown value is an [Error], a [Response], or something else of
      which only its [String(...)] rendering is observed.
    - [ctx.log] calls, [Date.now()] and the timer bookkeeping only feed
      the log and are left out; the JSON string a successful call returns
      is represented by the chunk list it serialises. *)

From Stdlib Require Import List String Ascii Bool Arith ZArith NArith QArith Lia.
From Stdlib Require Import DecimalString SpecFloat.
Import ListNotations.

Local Close Scope Q_scope.
Local Open Scope string_scope.
Local Open Scope list_scope.

(** ** JavaScript primitives used by the source *)

(** An optional or nullable property read: [undefined], [null], or a
    value. *)
Inductive nullable (A : Type) : Type :=
| undefined
| null
| val (a : A).

Arguments undefined {A}.
Arguments null {A}.
Arguments val {A} a.

(** [x ?? d]: the right operand is taken exactly when the left one is
    [undefined] or [null]. *)
Definition nullish_coalesce {A : Type} (x : nullable A) (d : A) : A :=
  match x with
  | val a => a
  | undefined | null => d
  end.


(** [hay.includes(needle)] *)
Fixpoint includes (needle hay : string) : bool :=
  String.prefix needle hay
  || match hay with
     | EmptyString => false
     | String _ rest => includes needle rest
     end.

(** Decimal rendering of a non-negative integer inside a template
    literal. *)
Definition decimal (n : N) : string :=
  NilZero.string_of_uint (N.to_uint n).

(** *** Numbers

    A number is a binary64 float. [of_Z] is the float of an integer
    literal; the integers of this file are far below 2^53. *)

Definition of_Z (z : Z) : spec_float := binary_normalize 53 1024 z 0 false.

(** [Math.floor(x)] *)
Definition Math_floor (x : spec_float) : spec_float :=
  match x with
  | S754_finite s m e =>
      if (0 <=? e)%Z then x
      else binary_normalize 53 1024 (cond_Zopp s (Zpos m) / 2 ^ (- e))%Z 0 s
  | S754_zero _ | S754_infinity _ | S754_nan => x
  end.

(** [Math.pow(2, n)] for a loop counter [n] *)
Definition Math_pow_2 (n : nat) : spec_float :=
  SFldexp 53 1024 (SFone 53 1024) (Z.of_nat n).

(** [Math.max(a, b)] *)
Definition Math_max (a b : spec_float) : spec_float :=
  match SFcompare a b with
  | None => S754_nan
  | Some Lt => b
  | Some Gt => a
  | Some Eq => match a with S754_zero true => b | _ => a end
  end.

(** Whether two floats are the same float. *)
Definition SF_eqb (x y : spec_float) : bool :=
  match x, y with
  | S754_zero s1, S754_zero s2 => Bool.eqb s1 s2
  | S754_infinity s1, S754_infinity s2 => Bool.eqb s1 s2
  | S754_nan, S754_nan => true
  | S754_finite s1 m1 e1, S754_finite s2 m2 e2 =>
      Bool.eqb s1 s2 && (m1 =? m2)%positive && (e1 =? e2)%Z
  | _, _ => false
  end.

(** What [Math.random()] may return: a binary64 float that is at least 0
    and less than 1. *)
Definition is_unit_draw (r : spec_float) : bool :=
  match r with
  | S754_zero false => true
  | S754_finite false m e =>
      valid_binary 53 1024 r && (Zpos m <? 2 ^ (- e))%Z && (e <? 0)%Z
  | _ => false
  end.

(** ** Data model ([types.ts]) *)

Module Chunk.
Record t : Type := mk { id : string; text : string; score : Q }.
End Chunk.

Module SearchResultItem.
Record t : Type :=
    mk { id : nullable string; text : nullable string; score : nullable Q }.
End SearchResultItem.

(** The [results] property of an output item as [Array.isArray] sees it. *)
Inductive ResultsField : Type :=
| results_absent
| results_malformed
| results_array (rs : list SearchResultItem.t).

Definition isArray (f : ResultsField) : bool :=
  match f with
  | results_array _ => true
  | results_absent | results_malformed => false
  end.

(** The elements [forEach] visits once [Array.isArray] has answered
    [true]. *)
Definition elements (f : ResultsField) : list SearchResultItem.t :=
  match f with
  | results_array rs => rs
  | results_absent | results_malformed => []
  end.

Module OutputItem.
Record t : Type := mk { type : string; results : ResultsField }.
End OutputItem.

Module OpenAiFileSearchResponse.
Record t : Type := mk { output : nullable (list OutputItem.t) }.
End OpenAiFileSearchResponse.

Inductive ErrorCode : Type :=
| OPENAI_RATE_LIMIT
| OPENAI_UPSTREAM_ERROR
| OPENAI_NETWORK_ERROR
| OPENAI_TIMEOUT
| INTERNAL_SERVER_ERROR.

(** The optional [details] property: absent, the [{status, errorText}]
    object, or a string. *)
Inductive Details : Type :=
| no_details
| status_details (status : N) (errorText : string)
| string_details (s : string).

Module McpError.
Record t : Type := mk { code : ErrorCode; message : string; details : Details }.
End McpError.

(** ** Faults: what the [catch] block can receive *)

Module JsError.
Record t : Type := mk { name : string; message : string; stack : option string }.
End JsError.

Module Response.
  (** [text] and [json] are what the corresponding body readers resolve
      to; [None] and [inl] stand for a rejected read. *)
Record t : Type :=
    mk { status : N;
         text : option string;
         json : JsError.t + OpenAiFileSearchResponse.t }.

Definition ok (r : t) : bool := ((200 <=? status r) && (status r <=? 299))%N.
End Response.

(** A thrown value: an [Error], a [Response], or anything else, of which
    the classifier only observes [String(error)]. *)
Inductive Fault : Type :=
| an_error (e : JsError.t)
| a_response (r : Response.t)
| another_value (rendering : string).

(** [error instanceof Error && error.name === "AbortError"] *)
Definition is_AbortError (error : Fault) : bool :=
  match error with
  | an_error e => JsError.name e =? "AbortError"
  | a_response _ | another_value _ => false
  end.

(** ** The host and the effect monad *)

Inductive FetchResult : Type :=
| fetch_rejected (e : JsError.t)
| fetch_resolved (r : Response.t).

Record Host : Type :=
  { fetch : nat -> FetchResult;
    random : nat -> spec_float;
    toString36 : spec_float -> string }.

Inductive Event : Type :=
| EvFetch (attempt : nat)
| EvDelay (ms : spec_float)
| EvConsoleError (line : string).

Record State : Type := { draws : nat; trace : list Event }.

Definition initial : State := {| draws := 0; trace := [] |}.

Definition M (A : Type) : Type := State -> A * State.

Definition ret {A : Type} (a : A) : M A := fun s => (a, s).

Definition bind {A B : Type} (m : M A) (k : A -> M B) : M B :=
  fun s => let (a, s') := m s in k a s'.

Notation "x <- m ;; k" := (bind m (fun x => k))
  (at level 61, m at next level, right associativity).
Notation "m ;; k" := (bind m (fun _ => k))
  (at level 61, right associativity).

Definition emit (ev : Event) : M unit :=
  fun s => (tt, {| draws := draws s; trace := trace s ++ [ev] |}).

(** [Math.random()] *)
Definition Math_random (h : Host) : M spec_float :=
  fun s => (random h (draws s), {| draws := S (draws s); trace := trace s |}).

(** ** The error classifier (server.ts, [toMcpError]) *)

Definition toMcpError (error : Fault) : M McpError.t :=
  if is_AbortError error then
    ret (McpError.mk OPENAI_TIMEOUT
           "OpenAI API request timed out after 30 seconds." no_details)
  else
    match error with
    | a_response r =>
        let status := Response.status r in
        errorText <-
          match Response.text r with
          | Some body => ret body
          | None =>
              emit (EvConsoleError "Failed to read error response body:") ;;
              ret "Could not read error response body."
          end ;;
        if (status =? 429)%N then
          ret (McpError.mk OPENAI_RATE_LIMIT
                 "OpenAI API rate limit exceeded."
                 (status_details status errorText))
        else if (500 <=? status)%N then
          ret (McpError.mk OPENAI_UPSTREAM_ERROR
                 "OpenAI API returned an upstream server error."
                 (status_details status errorText))
        else
          ret (McpError.mk INTERNAL_SERVER_ERROR
                 ("OpenAI API request failed with status "
                    ++ decimal status ++ ".")
                 (status_details status errorText))
    | an_error e =>
        if includes "fetch failed" (JsError.message e)
           || (JsError.name e =? "TypeError") then
          ret (McpError.mk OPENAI_NETWORK_ERROR
                 (nullish_coalesce (val (JsError.message e))
                    "Network error during OpenAI API request.")
                 no_details)
        else
          ret (McpError.mk INTERNAL_SERVER_ERROR
                 (nullish_coalesce (val (JsError.message e))
                    "An unexpected server error occurred.")
                 no_details)
    | another_value rendering =>
        ret (McpError.mk INTERNAL_SERVER_ERROR
               "An unknown error occurred."
               (string_details rendering))
    end.

(** [delay(ms)] *)
Definition delay (ms : spec_float) : M unit := emit (EvDelay ms).

(** ** The tool's [execute] function (server.ts) *)

Definition maxAttempts : nat := 3.
Definition baseDelay : spec_float := of_Z 500.

(** The fallback identifier
    [`unknown_id_${Math.random().toString(36).substring(2, 15)}`]. *)
Definition fallback_id (h : Host) : M string :=
  r <- Math_random h ;;
  ret ("unknown_id_" ++ substring 2 13 (toString36 h r))%string.

(** The inner [forEach]: one chunk pushed per result item. *)
Fixpoint push_results (h : Host) (results : list SearchResultItem.t)
    (chunks : list Chunk.t) : M (list Chunk.t) :=
  match results with
  | [] => ret chunks
  | r :: rest =>
      id <- match SearchResultItem.id r with
            | val i => ret i
            | undefined | null => fallback_id h
            end ;;
      let chunk :=
        Chunk.mk id
          (nullish_coalesce (SearchResultItem.text r) "")
          (nullish_coalesce (SearchResultItem.score r) 0%Q) in
      push_results h rest (chunks ++ [chunk])
  end.

(** The outer [forEach] over the output items. *)
Fixpoint push_output (h : Host) (items : list OutputItem.t)
    (chunks : list Chunk.t) : M (list Chunk.t) :=
  match items with
  | [] => ret chunks
  | item :: rest =>
      chunks' <-
        (if (OutputItem.type item =? "file_search_call")
            && isArray (OutputItem.results item)
         then push_results h (elements (OutputItem.results item)) chunks
         else ret chunks) ;;
      push_output h rest chunks'
  end.

(** Lines 205-236: [chunks] starts empty and is filled from
    [responseData.output ?? []]. *)
Definition extract_chunks (h : Host) (responseData : OpenAiFileSearchResponse.t)
  : M (list Chunk.t) :=
  push_output h
    (nullish_coalesce (OpenAiFileSearchResponse.output responseData) []) [].

(** The [try] block of one attempt: the chunk list it returns, or the
    value it throws. *)
Definition try_block (h : Host) (attempt : nat) : M (list Chunk.t + Fault) :=
  emit (EvFetch attempt) ;;
  match fetch h attempt with
  | fetch_rejected e => ret (inr (an_error e))
  | fetch_resolved response =>
      if negb (Response.ok response) then ret (inr (a_response response))
      else
        match Response.json response with
        | inl e => ret (inr (an_error e))
        | inr responseData =>
            chunks <- extract_chunks h responseData ;;
            ret (inl chunks)
        end
  end.

(** Strict equality of two code strings. *)
Definition ErrorCode_eqb (a b : ErrorCode) : bool :=
  match a, b with
  | OPENAI_RATE_LIMIT, OPENAI_RATE_LIMIT
  | OPENAI_UPSTREAM_ERROR, OPENAI_UPSTREAM_ERROR
  | OPENAI_NETWORK_ERROR, OPENAI_NETWORK_ERROR
  | OPENAI_TIMEOUT, OPENAI_TIMEOUT
  | INTERNAL_SERVER_ERROR, INTERNAL_SERVER_ERROR => true
  | _, _ => false
  end.

Definition retryable_codes : list ErrorCode :=
  [ OPENAI_RATE_LIMIT; OPENAI_UPSTREAM_ERROR;
    OPENAI_NETWORK_ERROR; OPENAI_TIMEOUT ].

(** [[...].includes(mcpError.code)] *)
Definition isRetryable (c : ErrorCode) : bool :=
  existsb (ErrorCode_eqb c) retryable_codes.

(** [baseDelay * Math.pow(2, attempt)] *)
Definition delayMs (attempt : nat) : spec_float :=
  SFmul 53 1024 baseDelay (Math_pow_2 attempt).

(** [Math.floor(Math.random() * 201) - 100], the draw being [r] *)
Definition jitter (r : spec_float) : spec_float :=
  SFsub 53 1024 (Math_floor (SFmul 53 1024 r (of_Z 201))) (of_Z 100).

(** [Math.max(0, delayMs + jitter)] *)
Definition waitTime (attempt : nat) (r : spec_float) : spec_float :=
  Math_max (of_Z 0) (SFadd 53 1024 (delayMs attempt) (jitter r)).

(** How one iteration of the [for] loop ends. *)
Inductive Completion : Type :=
| Return (chunks : list Chunk.t)
| Continue
| Throw (e : McpError.t).

(** The [catch] block. *)
Definition catch_block (h : Host) (budget attempt : nat) (error : Fault)
  : M Completion :=
  mcpError <- toMcpError error ;;
  if isRetryable (McpError.code mcpError) && (attempt <? budget - 1)%nat then
    r <- Math_random h ;;
    delay (waitTime attempt r) ;;
    ret Continue
  else ret (Throw mcpError).

(** The loop body. *)
Definition loop_body (h : Host) (budget attempt : nat) : M Completion :=
  tried <- try_block h attempt ;;
  match tried with
  | inl chunks => ret (Return chunks)
  | inr error => catch_block h budget attempt error
  end.

(** What the caller of [execute] gets: the chunk list, the structured
    error, or the plain [Error] of the statement after the loop. *)
Inductive Outcome : Type :=
| Returned (chunks : list Chunk.t)
| Failed (e : McpError.t)
| FellThrough (message : string).

(** [for (let attempt = 0; attempt < budget; attempt++)]; [remaining] is
    [budget - attempt]. *)
Fixpoint retry_loop (h : Host) (budget remaining attempt : nat) : M Outcome :=
  match remaining with
  | O => ret (FellThrough "OpenAI request failed after multiple retries.")
  | S remaining' =>
      c <- loop_body h budget attempt ;;
      match c with
      | Return chunks => ret (Returned chunks)
      | Throw e => ret (Failed e)
      | Continue => retry_loop h budget remaining' (S attempt)
      end
  end.

Definition execute_with (budget : nat) (h : Host) : Outcome * State :=
  retry_loop h budget budget 0 initial.

Definition execute (h : Host) : Outcome * State := execute_with maxAttempts h.

(** Observations on a finished run. *)
Definition is_fetch (ev : Event) : bool :=
  match ev with EvFetch _ => true | _ => false end.

Definition calls (s : State) : nat := List.length (filter is_fetch (trace s)).

Fixpoint sleeps_of (evs : list Event) : list spec_float :=
  match evs with
  | [] => []
  | EvDelay ms :: rest => ms :: sleeps_of rest
  | _ :: rest => sleeps_of rest
  end.

Definition sleeps (s : State) : list spec_float := sleeps_of (trace s).

(** ** Sample hosts *)

Definition http (status : N) (body : string) : FetchResult :=
  fetch_resolved
    (Response.mk status (Some body)
       (inl (JsError.mk "SyntaxError" "Unexpected token" None))).

Definition http_ok (data : OpenAiFileSearchResponse.t) : FetchResult :=
  fetch_resolved (Response.mk 200 (Some "") (inr data)).

Definition sample_response : OpenAiFileSearchResponse.t :=
  OpenAiFileSearchResponse.mk
    (val [ OutputItem.mk "message" results_absent;
           OutputItem.mk "file_search_call"
             (results_array
                [ SearchResultItem.mk (val "x") (val "hello") (val (9 # 10)%Q);
                  SearchResultItem.mk undefined null undefined ]);
           OutputItem.mk "file_search_call" results_malformed;
           OutputItem.mk "file_search_call"
             (results_array [ SearchResultItem.mk (val "y") undefined (val 1%Q) ]) ]).

Definition host_of (f : nat -> FetchResult) : Host :=
  {| fetch := f;
     random := fun _ => S754_finite false 4503599627370496 (-53);
     toString36 := fun _ => "0.i" |}.

Definition always (r : FetchResult) : Host := host_of (fun _ => r).

Definition first_then (r0 r : FetchResult) : Host :=
  host_of (fun n => match n with O => r0 | S _ => r end).

(** ** Pure readings of one attempt

    What the [try] block of an attempt throws is decided by the fetch
    result alone, and what the classifier answers by the fault alone;
    the definitions below name these two facts so that statements about
    whole runs can speak of "the fault of attempt [i]" and "its
    classification". *)

Definition fault_of (r : FetchResult) : option Fault :=
  match r with
  | fetch_rejected e => Some (an_error e)
  | fetch_resolved response =>
      if negb (Response.ok response) then Some (a_response response)
      else
        match Response.json response with
        | inl e => Some (an_error e)
        | inr _ => None
        end
  end.

Definition classified (error : Fault) : McpError.t :=
  fst (toMcpError error initial).

Definition console_lines (error : Fault) : list Event :=
  match error with
  | a_response r =>
      match Response.text r with
      | Some _ => []
      | None => [EvConsoleError "Failed to read error response body:"]
      end
  | an_error _ | another_value _ => []
  end.

(** The text the classifier reports for a response: its body, or the
    placeholder when the body cannot be read. *)
Definition errorText_of (r : Response.t) : string :=
  match Response.text r with
  | Some body => body
  | None => "Could not read error response body."
  end.

(** The condition of line 264. *)
Definition retries (budget attempt : nat) (e : McpError.t) : bool :=
  isRetryable (McpError.code e) && (attempt <? budget - 1)%nat.

(** The result items the normaliser is specified to visit: those of the
    output items tagged as file-search calls whose result list is a
    proper array, in order. *)
Definition is_file_search_call (item : OutputItem.t) : bool :=
  (OutputItem.type item =? "file_search_call") && isArray (OutputItem.results item).

Definition selected_results (responseData : OpenAiFileSearchResponse.t)
  : list SearchResultItem.t :=
  flat_map
    (fun item =>
       if is_file_search_call item then elements (OutputItem.results item) else [])
    (nullish_coalesce (OpenAiFileSearchResponse.output responseData) []).

(** A chunk is the normal form of a result item. *)
Definition normal_form (r : SearchResultItem.t) (c : Chunk.t) : Prop :=
  match SearchResultItem.id r with
  | val i => Chunk.id c = i
  | undefined | null =>
      Chunk.id c <> "" /\ String.prefix "unknown_id_" (Chunk.id c) = true
  end
  /\ Chunk.text c = nullish_coalesce (SearchResultItem.text r) ""
  /\ Chunk.score c = nullish_coalesce (SearchResultItem.score r) 0%Q.

(** [Math.random()] answers in the half-open unit interval. *)
Definition unit_interval (h : Host) : Prop :=
  forall n, is_unit_draw (random h n) = true.

(** The wait as a function of the attempt and of the floored product
    [k], and the check that it is the float of
    [max 0 (500 * 2^a + (k - 100))], that the subtraction gives the float
    of [k - 100] and that the guard leaves the sum as it is. *)
Definition wait_of_floor (a : nat) (k : Z) : spec_float :=
  Math_max (of_Z 0)
    (SFadd 53 1024 (delayMs a) (SFsub 53 1024 (of_Z k) (of_Z 100))).

Definition wait_table_ok (a k : nat) : bool :=
  SF_eqb (wait_of_floor a (Z.of_nat k))
    (of_Z (Z.max 0 (500 * 2 ^ Z.of_nat a + (Z.of_nat k - 100))))
  && SF_eqb (SFsub 53 1024 (of_Z (Z.of_nat k)) (of_Z 100))
       (of_Z (Z.of_nat k - 100))
  && SF_eqb (wait_of_floor a (Z.of_nat k))
       (SFadd 53 1024 (delayMs a)
          (SFsub 53 1024 (of_Z (Z.of_nat k)) (of_Z 100))).

(** ** Configuration loading (config.ts) and start-up (server.ts, [main])

    The file system, [JSON.parse], [process.env] and the messages that
    zod words itself are given by a [ConfigHost]; the schemas are the two
    of the source. A parsed JSON object is its list of properties. *)

Local Unset Elimination Schemes.

Inductive Json : Type :=
| JNull
| JBool (b : bool)
| JNumber (q : Q)
| JString (s : string)
| JArray (items : list Json)
| JObject (fields : list (string * Json)).

Local Set Elimination Schemes.

(** [data[key]] on a parsed object. *)
Fixpoint property (key : string) (fields : list (string * Json)) : option Json :=
  match fields with
  | [] => None
  | (k, v) :: rest => if k =? key then Some v else property key rest
  end.

(** The type names zod reports. *)
Definition parsed_type (v : Json) : string :=
  match v with
  | JNull => "null"
  | JBool _ => "boolean"
  | JNumber _ => "number"
  | JString _ => "string"
  | JArray _ => "array"
  | JObject _ => "object"
  end.

Module AppConfig.
Record t : Type :=
  mk { vectorStoreId : string; openaiApiKey : string; debugOpenai : bool }.
End AppConfig.

Record Issue : Type := { path : list string; issue_message : string }.

Record ConfigHost : Type :=
  { (* [fs.readFileSync] followed by [JSON.parse]: the value thrown, or
       the parsed value *)
    read_and_parse : Fault + Json;
    env_OPENAI_API_KEY : option string;
    env_DEBUG_OPENAI : option string;
    (* zod's wording of a type mismatch, from the expected and the
       received type names *)
    invalid_type : string -> string -> string }.

(** [z.object({ vectorStoreId: z.string().startsWith("vs_", ...) })] *)
Definition FileConfigSchema_safeParse (ch : ConfigHost) (data : Json)
  : list Issue + string :=
  match data with
  | JObject fields =>
      match property "vectorStoreId" fields with
      | Some (JString s) =>
          if String.prefix "vs_" s then inr s
          else inl [ {| path := ["vectorStoreId"];
                        issue_message :=
                          "vectorStoreId in config.json must start with vs_" |} ]
      | Some v =>
          inl [ {| path := ["vectorStoreId"];
                   issue_message := invalid_type ch "string" (parsed_type v) |} ]
      | None =>
          inl [ {| path := ["vectorStoreId"];
                   issue_message := invalid_type ch "string" "undefined" |} ]
      end
  | _ =>
      inl [ {| path := [];
               issue_message := invalid_type ch "object" (parsed_type data) |} ]
  end.

(** [z.object({ OPENAI_API_KEY: z.string().min(1, ...),
                DEBUG_OPENAI: z.string().optional() })] on [process.env],
    whose values are strings. *)
Definition EnvSchema_safeParse (ch : ConfigHost)
  : list Issue + (string * option string) :=
  match env_OPENAI_API_KEY ch with
  | Some key =>
      if (1 <=? String.length key)%nat then inr (key, env_DEBUG_OPENAI ch)
      else inl [ {| path := ["OPENAI_API_KEY"];
                    issue_message :=
                      "OPENAI_API_KEY environment variable is not set or empty" |} ]
  | None =>
      inl [ {| path := ["OPENAI_API_KEY"];
               issue_message := invalid_type ch "string" "undefined" |} ]
  end.

(** [errors.map((e) => `${e.path.join(".")}: ${e.message}`).join("; ")] *)
Definition format_issues (issues : list Issue) : string :=
  String.concat "; "
    (map (fun e => (String.concat "." (path e) ++ ": " ++ issue_message e)%string)
       issues).

(** [toLowerCase] on the ASCII letters. *)
Definition lower (c : ascii) : ascii :=
  let n := nat_of_ascii c in
  if ((65 <=? n) && (n <=? 90))%nat then ascii_of_nat (n + 32) else c.

Fixpoint toLowerCase (s : string) : string :=
  match s with
  | EmptyString => EmptyString
  | String c rest => String (lower c) (toLowerCase rest)
  end.

(** [["true", "1"].includes(DEBUG_OPENAI?.toLowerCase() ?? "")] *)
Definition debug_flag (DEBUG_OPENAI : option string) : bool :=
  existsb
    (String.eqb
       (nullish_coalesce
          (match DEBUG_OPENAI with
           | Some v => val (toLowerCase v)
           | None => undefined
           end) ""))
    ["true"; "1"].

Inductive ConsoleLine : Type :=
| console_log (line : string)
| console_error (line : string).

(** [error instanceof Error ? error.message : String(error)] *)
Definition message_of (error : Fault) : string :=
  match error with
  | an_error e => JsError.message e
  | a_response _ => "[object Response]"
  | another_value rendering => rendering
  end.

(** What [loadConfig] gives its caller. *)
Inductive Loaded : Type :=
| loaded (config : AppConfig.t)
| load_failed (message : string).

(** The [try] block of step 1: the validated identifier, or the value
    thrown. *)
Definition try_load_file (ch : ConfigHost) : (string + Fault) * list ConsoleLine :=
  match read_and_parse ch with
  | inl thrown => (inr thrown, [])
  | inr parsedConfig =>
      match FileConfigSchema_safeParse ch parsedConfig with
      | inl issues =>
          let errorMessages := format_issues issues in
          (inr (an_error
                  (JsError.mk "Error"
                     ("config.json validation failed: " ++ errorMessages) None)),
           [console_error ("config.json validation failed: " ++ errorMessages)])
      | inr vectorStoreId =>
          (inl vectorStoreId,
           [console_log "config.json loaded and validated successfully."])
      end
  end.

Definition loadConfig (ch : ConfigHost) : Loaded * list ConsoleLine :=
  match try_load_file ch with
  | (inr error, lines) =>
      let message := message_of error in
      (load_failed ("Failed to load or parse config.json: " ++ message),
       lines ++ [console_error ("Failed to load or parse config.json: " ++ message)])
  | (inl vectorStoreId, lines) =>
      match EnvSchema_safeParse ch with
      | inl issues =>
          let errorMessages := format_issues issues in
          (load_failed ("Environment variable validation failed: " ++ errorMessages),
           lines ++ [console_error
                       ("Environment variable validation failed: " ++ errorMessages)])
      | inr (OPENAI_API_KEY, DEBUG_OPENAI) =>
          let debugOpenai := debug_flag DEBUG_OPENAI in
          (loaded (AppConfig.mk vectorStoreId OPENAI_API_KEY debugOpenai),
           lines
             ++ [ console_log "Environment variables validated successfully.";
                  match DEBUG_OPENAI with
                  | Some _ =>
                      console_log
                        ("DEBUG_OPENAI flag set to: "
                           ++ (if debugOpenai then "true" else "false"))
                  | None =>
                      console_log "DEBUG_OPENAI flag not set, defaulting to false."
                  end;
                  console_log "Configuration loaded successfully." ])
      end
  end.

Definition is_console_error (l : ConsoleLine) : bool :=
  match l with console_error _ => true | console_log _ => false end.

(** [main]: what the process does at start-up. Building the server and
    registering the tool may throw, and [server.start] may reject. *)
Record MainHost : Type :=
  { config_host : ConfigHost;
    setup_throws : option Fault;
    start_rejects : option Fault }.

Inductive MainEvent : Type :=
| main_console (l : ConsoleLine)
| main_start (config : AppConfig.t)
| main_exit (code : Z).

Definition main (mh : MainHost) : list MainEvent :=
  let (result, lines) := loadConfig (config_host mh) in
  map main_console lines
    ++ match result with
       | load_failed message =>
           [ main_console (console_error ("Failed to load configuration: " ++ message));
             main_exit 1 ]
       | loaded config =>
           match setup_throws mh with
           | Some error =>
               [ main_console
                   (console_error
                      ("Unhandled error in main function: " ++ message_of error));
                 main_exit 1 ]
           | None =>
               main_start config
                 :: match start_rejects mh with
                    | Some error =>
                        [ main_console
                            (console_error
                               ("Failed to start FastMCP server: "
                                  ++ message_of error));
                          main_exit 1 ]
                    | None =>
                        [ main_console
                            (console_log
                               "🚀 FileSearch MCP Server started successfully. Transport: stdio (default)") ]
                    end
           end
       end.

(** ** Reference readings of the success path and of the backoff

    Closed forms that the further properties compare the code with. *)

(** The generated identifier of the draw number [d]. *)
Definition generated_id (h : Host) (d : nat) : string :=
  ("unknown_id_" ++ substring 2 13 (toString36 h (random h d)))%string.

(** The chunks of a list of result items, the generated identifiers
    taking the draws from number [d] on, one each. *)
Fixpoint normal_chunks (h : Host) (d : nat) (rs : list SearchResultItem.t)
  : list Chunk.t :=
  match rs with
  | [] => []
  | r :: rest =>
      let text := nullish_coalesce (SearchResultItem.text r) "" in
      let score := nullish_coalesce (SearchResultItem.score r) 0%Q in
      match SearchResultItem.id r with
      | val i => Chunk.mk i text score :: normal_chunks h d rest
      | undefined | null =>
          Chunk.mk (generated_id h d) text score :: normal_chunks h (S d) rest
      end
  end.

(** How many result items come without an id. *)
Fixpoint missing_ids (rs : list SearchResultItem.t) : nat :=
  match rs with
  | [] => 0
  | r :: rest =>
      match SearchResultItem.id r with
      | val _ => missing_ids rest
      | undefined | null => S (missing_ids rest)
      end
  end.

(** A chunk read back as a result item with all three fields present,
    and a response that carries a chunk list in one file-search call. *)
Definition result_of_chunk (c : Chunk.t) : SearchResultItem.t :=
  SearchResultItem.mk (val (Chunk.id c)) (val (Chunk.text c)) (val (Chunk.score c)).

Definition response_of_chunks (chunks : list Chunk.t) : OpenAiFileSearchResponse.t :=
  OpenAiFileSearchResponse.mk
    (val [ OutputItem.mk "file_search_call"
             (results_array (map result_of_chunk chunks)) ]).

(** The waits of [m] retries in a row, the first one after attempt number
    [attempt] and with the draw number [d]. *)
Fixpoint backoff_waits (h : Host) (attempt d m : nat) : list spec_float :=
  match m with
  | O => []
  | S m' =>
      waitTime attempt (random h d) :: backoff_waits h (S attempt) (S d) m'
  end.

Definition total (ws : list Z) : Z := fold_right Z.add 0%Z ws.

(** Calls and sleeps, as opposed to console lines. *)
Definition is_call_or_sleep (ev : Event) : bool :=
  match ev with
  | EvFetch _ | EvDelay _ => true
  | EvConsoleError _ => false
  end.

(** The calls and sleeps of a run that retries [m] times from attempt
    number [attempt] on: a call, its backoff wait, a call, ..., and a last
    call that no wait follows. *)
Fixpoint schedule (h : Host) (attempt d m : nat) : list Event :=
  match m with
  | O => [EvFetch attempt]
  | S m' =>
      EvFetch attempt :: EvDelay (waitTime attempt (random h d))
        :: schedule h (S attempt) (S d) m'
  end.

Ltac run_monad :=
  unfold bind, ret, emit, delay, Math_random; simpl.

(** * Properties *)

(** ** Strings and numbers *)





Section Binary64.

Local Open Scope Z_scope.

Lemma digits2_size (p : positive) : digits2_pos p = Pos.size p.
Proof. induction p as [p IH | p IH |]; simpl; rewrite ?IH; reflexivity. Qed.

Lemma digits_le (p : positive) (k : Z) :
  0 <= k -> Zpos p < 2 ^ k -> Zpos (digits2_pos p) <= k.
Proof.
  intros Hk Hp. rewrite digits2_size.
  pose proof (Pos.size_le p) as Hs.
  assert (H2 : 2 ^ Zpos (Pos.size p) <= 2 * Zpos p).
  { change (2 * Zpos p) with (Zpos p~0). rewrite <- Pos2Z.inj_pow.
    apply Pos2Z.pos_le_pos. exact Hs. }
  assert (H3 : 2 ^ Zpos (Pos.size p) < 2 ^ (k + 1)).
  { rewrite Z.pow_add_r by lia. change (2 ^ 1) with 2. lia. }
  apply Z.pow_lt_mono_r_iff in H3; lia.
Qed.

Lemma iter_pos_iter {A : Type} (f : A -> A) (p : positive) :
  forall x, iter_pos f p x = Pos.iter f x p.
Proof.
  induction p as [p IH | p IH |]; intros x; simpl.
  - rewrite !IH, !Pos.iter_swap. reflexivity.
  - rewrite !IH. reflexivity.
  - reflexivity.
Qed.

Lemma shr_1_nonneg (m : Z) (r s : bool) :
  0 <= m ->
  shr_1 (Build_shr_record m r s)
  = Build_shr_record (Z.div2 m) (Z.odd m) (r || s).
Proof.
  intros Hm. destruct m as [|[p|p|]|p]; try reflexivity. lia.
Qed.

Lemma shr_iter_spec (M : Z) (p : positive) :
  0 <= M ->
  let mrs := Pos.iter shr_1 (Build_shr_record M false false) p in
  0 <= shr_m mrs
  /\ shr_m mrs * 2 ^ Zpos p <= M
  /\ (shr_r mrs = true -> shr_m mrs * 2 ^ Zpos p + 2 ^ (Zpos p - 1) <= M).
Proof.
  intros HM. induction p as [|p IH] using Pos.peano_ind; cbv zeta.
  - cbn [Pos.iter]. rewrite shr_1_nonneg by exact HM. simpl shr_m. simpl shr_r.
    change (2 ^ 1) with 2. change (2 ^ (1 - 1)) with 1.
    pose proof (Z.div2_odd M) as Hd.
    destruct (Z.odd M); simpl Z.b2z in Hd;
      (split; [lia|]); (split; [lia|]); intros Hr; try discriminate Hr; lia.
  - rewrite Pos.iter_succ. cbv zeta in IH.
    destruct (Pos.iter shr_1 (Build_shr_record M false false) p) as [m r s].
    simpl shr_m in IH. simpl shr_r in IH. destruct IH as (Hm & Hle & _).
    rewrite shr_1_nonneg by exact Hm. simpl shr_m. simpl shr_r.
    rewrite Pos2Z.inj_succ.
    replace (Z.succ (Zpos p) - 1) with (Zpos p) by lia.
    rewrite Z.pow_succ_r by lia.
    assert (HP : 0 < 2 ^ Zpos p) by (apply Z.pow_pos_nonneg; lia).
    pose proof (Z.div2_odd m) as Hd.
    assert (H0 : 0 <= Z.div2 m) by (apply Z.div2_nonneg; exact Hm).
    destruct (Z.odd m); simpl Z.b2z in Hd;
      (split; [lia|]); (split; [nia|]); intros Hr; try discriminate Hr; nia.
Qed.

Lemma rne_bounds (mrs : shr_record) :
  let R := round_nearest_even (shr_m mrs) (loc_of_shr_record mrs) in
  shr_m mrs <= R
  /\ (R = shr_m mrs \/ (R = shr_m mrs + 1 /\ shr_r mrs = true)).
Proof.
  destruct mrs as [m [] []]; simpl; try (split; [lia | left; reflexivity]).
  - split; [lia | right; split; reflexivity].
  - destruct (Z.even m); [split; [lia | left; reflexivity]|].
    split; [lia | right; split; reflexivity].
Qed.

(** One right shift to the binary64 format, from an exact non-negative
    mantissa: the exponent it ends on, the mantissa kept and the mantissa
    rounded to nearest. *)
Lemma shr_fexp_exact (M E : Z) :
  0 <= M ->
  let mrs := fst (shr_fexp 53 1024 M E loc_Exact) in
  let e' := snd (shr_fexp 53 1024 M E loc_Exact) in
  let R := round_nearest_even (shr_m mrs) (loc_of_shr_record mrs) in
  e' = Z.max E (fexp 53 1024 (Zdigits2 M + E))
  /\ 0 <= shr_m mrs
  /\ shr_m mrs * 2 ^ (e' - E) <= M
  /\ 0 <= R
  /\ R * 2 ^ (e' - E) <= M + 2 ^ (e' - E) / 2.
Proof.
  intros HM. unfold shr_fexp, shr. cbv zeta.
  destruct (fexp 53 1024 (Zdigits2 M + E) - E) as [|p|p] eqn:Hn.
  - simpl fst. simpl snd. simpl shr_m.
    replace (Z.max E (fexp 53 1024 (Zdigits2 M + E))) with E by lia.
    rewrite Z.sub_diag. simpl. change (1 / 2) with 0. lia.
  - simpl fst. simpl snd. rewrite iter_pos_iter.
    replace (Z.max E (fexp 53 1024 (Zdigits2 M + E))) with (E + Zpos p) by lia.
    replace (E + Zpos p - E) with (Zpos p) by lia.
    pose proof (shr_iter_spec M p HM) as Hs. cbv zeta in Hs.
    pose proof (rne_bounds (Pos.iter shr_1 (Build_shr_record M false false) p))
      as Hr. cbv zeta in Hr.
    destruct (Pos.iter shr_1 (Build_shr_record M false false) p) as [m r s].
    simpl shr_m in *. simpl shr_r in *.
    destruct Hs as (Hm & Hle & Hhalf). destruct Hr as (HR & Hcase).
    assert (Hpow : 2 ^ Zpos p = 2 * 2 ^ (Zpos p - 1)).
    { rewrite <- Z.pow_succ_r by lia. f_equal. lia. }
    assert (Hdiv : 2 ^ Zpos p / 2 = 2 ^ (Zpos p - 1)).
    { rewrite Hpow, Z.mul_comm, Z.div_mul by lia. reflexivity. }
    assert (HP : 0 < 2 ^ (Zpos p - 1)) by (apply Z.pow_pos_nonneg; lia).
    rewrite Hdiv.
    split; [reflexivity|]. split; [exact Hm|]. split; [exact Hle|].
    split; [lia|].
    destruct Hcase as [-> | [-> Hrt]]; [lia|].
    specialize (Hhalf Hrt). nia.
  - simpl fst. simpl snd. simpl shr_m.
    replace (Z.max E (fexp 53 1024 (Zdigits2 M + E))) with E by lia.
    rewrite Z.sub_diag. simpl. change (1 / 2) with 0. lia.
Qed.

Lemma fexp_small (M : positive) (E B : Z) :
  E < 0 -> Zpos M < B * 2 ^ (- E) -> 0 < B <= 256 ->
  fexp 53 1024 (Zdigits2 (Zpos M) + E) <= -45.
Proof.
  intros HE HM HB. unfold fexp, emin. simpl Zdigits2.
  assert (Hd : Zpos (digits2_pos M) <= 8 - E).
  { apply digits_le; [lia|].
    replace (8 - E) with (8 + - E) by lia. rewrite Z.pow_add_r by lia.
    change (2 ^ 8) with 256.
    assert (0 < 2 ^ (- E)) by (apply Z.pow_pos_nonneg; lia). nia. }
  lia.
Qed.

Lemma pow2_split (a b : Z) : 0 <= a -> 0 <= b -> 2 ^ (a + b) = 2 ^ a * 2 ^ b.
Proof. intros; apply Z.pow_add_r; assumption. Qed.

(** Rounding a positive value below [B * 1] (with [B] at most 256) to
    binary64, when half a unit in the last place still fits under [B]:
    the result is zero or a finite float under [B] with a negative
    exponent. *)
Lemma round_below (M : positive) (E B : Z) :
  E < 0 -> 0 < B <= 256 ->
  Zpos M
  + 2 ^ (Z.max E (fexp 53 1024 (Zdigits2 (Zpos M) + E)) - E) / 2
  < B * 2 ^ (- E) ->
  binary_round_aux 53 1024 false (Zpos M) E loc_Exact = S754_zero false
  \/ exists m e,
       binary_round_aux 53 1024 false (Zpos M) E loc_Exact
       = S754_finite false m e
       /\ e < 0 /\ Zpos m < B * 2 ^ (- e).
Proof.
  intros HE HB Hhalf.
  pose proof (shr_fexp_exact (Zpos M) E ltac:(lia)) as H1. cbv zeta in H1.
  unfold binary_round_aux.
  destruct (shr_fexp 53 1024 (Zpos M) E loc_Exact) as [mrs1 e1].
  simpl fst in H1. simpl snd in H1.
  destruct H1 as (He1 & _ & _ & HR0 & HR).
  set (R := round_nearest_even (shr_m mrs1) (loc_of_shr_record mrs1)) in *.
  rewrite <- He1 in Hhalf.
  assert (Hh0 : 0 <= 2 ^ (e1 - E) / 2).
  { apply Z.div_pos; [apply Z.pow_nonneg|]; lia. }
  assert (Hf1 : fexp 53 1024 (Zdigits2 (Zpos M) + E) <= -45)
    by (apply (fexp_small M E B); lia).
  assert (He1neg : e1 < 0) by lia.
  assert (He1E : E <= e1) by lia.
  assert (HP1 : 0 < 2 ^ (e1 - E)) by (apply Z.pow_pos_nonneg; lia).
  assert (HQ1 : 0 < 2 ^ (- e1)) by (apply Z.pow_pos_nonneg; lia).
  assert (Hsplit1 : 2 ^ (- E) = 2 ^ (e1 - E) * 2 ^ (- e1)).
  { rewrite <- pow2_split by lia. f_equal. lia. }
  assert (HRlt : R < B * 2 ^ (- e1)) by nia.
  pose proof (shr_fexp_exact R e1 HR0) as H2. cbv zeta in H2.
  destruct (shr_fexp 53 1024 R e1 loc_Exact) as [mrs2 e2].
  simpl fst in H2. simpl snd in H2.
  destruct H2 as (He2 & Hm2 & Hle2 & _ & _).
  destruct (shr_m mrs2) as [|m|m] eqn:Hmrs; [left; reflexivity | | lia].
  right.
  assert (HRpos : 0 < R).
  { assert (0 < 2 ^ (e2 - e1)) by (apply Z.pow_pos_nonneg; lia). nia. }
  assert (He2neg : e2 < 0).
  { destruct R as [|r|r] eqn:HRr; try lia.
    assert (fexp 53 1024 (Zdigits2 (Zpos r) + e1) <= -45)
      by (apply (fexp_small r e1 B); lia).
    lia. }
  assert (HP2 : 0 < 2 ^ (e2 - e1)) by (apply Z.pow_pos_nonneg; lia).
  assert (HQ2 : 0 < 2 ^ (- e2)) by (apply Z.pow_pos_nonneg; lia).
  assert (Hsplit2 : 2 ^ (- e1) = 2 ^ (e2 - e1) * 2 ^ (- e2)).
  { rewrite <- pow2_split by lia. f_equal. lia. }
  exists m, e2.
  assert (Hfin : (e2 <=? 1024 - 53) = true) by (apply Z.leb_le; lia).
  rewrite Hfin. split; [reflexivity|]. split; [exact He2neg|]. nia.
Qed.

Lemma of_Z_201 : of_Z 201 = S754_finite false 7072058789855232 (-45).
Proof. vm_compute. reflexivity. Qed.

Lemma unit_draw_finite (m : positive) (e : Z) :
  is_unit_draw (S754_finite false m e) = true ->
  -1074 <= e < 0 /\ Zpos m < 2 ^ 53 /\ Zpos m < 2 ^ (- e).
Proof.
  unfold is_unit_draw, valid_binary, bounded, canonical_mantissa.
  rewrite !andb_true_iff, Z.eqb_eq, Z.leb_le, !Z.ltb_lt.
  intros [[[Hc _] Hlt] He]. unfold fexp, emin in Hc.
  assert (Hd : Zpos (digits2_pos m) <= 53) by lia.
  repeat split; try lia.
  rewrite digits2_size in Hd.
  pose proof (Pos.size_gt m) as Hs.
  assert (Hz : Zpos m < 2 ^ Zpos (Pos.size m)).
  { rewrite <- Pos2Z.inj_pow. apply Pos2Z.pos_lt_pos. exact Hs. }
  assert (2 ^ Zpos (Pos.size m) <= 2 ^ 53)
    by (apply Z.pow_le_mono_r; lia).
  lia.
Qed.

(** The floor of the binary64 product of a draw and 201 is one of the
    integers 0 to 200. *)
Lemma floor_of_product (r : spec_float) :
  is_unit_draw r = true ->
  exists k : Z,
    0 <= k <= 200
    /\ Math_floor (SFmul 53 1024 r (of_Z 201)) = of_Z k.
Proof.
  intros Hr. rewrite of_Z_201.
  destruct r as [[] | s | | [] m e]; try discriminate Hr.
  - exists 0. split; [lia | reflexivity].
  - destruct (unit_draw_finite m e Hr) as (He & Hm53 & Hm1).
    unfold SFmul. cbn [xorb].
    assert (Hround :
      Zpos (m * 7072058789855232)
      + 2 ^ (Z.max (e + -45)
               (fexp 53 1024 (Zdigits2 (Zpos (m * 7072058789855232)) + (e + -45)))
             - (e + -45)) / 2
      < 201 * 2 ^ (- (e + -45))).
    { set (M := (m * 7072058789855232)%positive).
      assert (HM : Zpos M = Zpos m * 7072058789855232) by reflexivity.
      assert (Hd : Zpos (digits2_pos M) <= 106).
      { apply digits_le; [lia|]. rewrite HM.
        change (2 ^ 106) with (2 ^ 53 * 2 ^ 53).
        change (2 ^ 53) with 9007199254740992 in *. nia. }
      set (n := Z.max (e + -45) (fexp 53 1024 (Zdigits2 (Zpos M) + (e + -45)))
                - (e + -45)).
      assert (Hn : 0 <= n <= 53).
      { unfold n, fexp, emin. simpl Zdigits2. lia. }
      assert (Hpn : 2 ^ n <= 2 ^ 53) by (apply Z.pow_le_mono_r; lia).
      assert (Hhalf : 2 ^ n / 2 <= 2 ^ 52).
      { apply Z.div_le_upper_bound; [lia|].
        change (2 * 2 ^ 52) with (2 ^ 53). exact Hpn. }
      replace (- (e + -45)) with (45 + - e) by lia.
      rewrite pow2_split by lia.
      change (2 ^ 45) with 35184372088832.
      change (2 ^ 52) with 4503599627370496 in Hhalf.
      assert (0 < 2 ^ (- e)) by (apply Z.pow_pos_nonneg; lia).
      rewrite HM. nia. }
    destruct (round_below (m * 7072058789855232) (e + -45) 201
                ltac:(lia) ltac:(lia) Hround)
      as [-> | (m' & e' & -> & He' & Hm')].
    + exists 0. split; [lia | reflexivity].
    + exists (Zpos m' / 2 ^ (- e')).
      assert (HQ : 0 < 2 ^ (- e')) by (apply Z.pow_pos_nonneg; lia).
      split.
      * split; [apply Z.div_pos; lia|].
        assert (Zpos m' / 2 ^ (- e') < 201)
          by (apply Z.div_lt_upper_bound; lia).
        lia.
      * unfold Math_floor.
        assert (Hneg : (0 <=? e') = false) by (apply Z.leb_gt; lia).
        rewrite Hneg. reflexivity.
Qed.

Lemma SF_eqb_eq (x y : spec_float) : SF_eqb x y = true -> x = y.
Proof.
  destruct x as [s1 | s1 | | s1 m1 e1], y as [s2 | s2 | | s2 m2 e2];
    simpl; try discriminate; try reflexivity.
  - intros H. apply Bool.eqb_prop in H. congruence.
  - intros H. apply Bool.eqb_prop in H. congruence.
  - rewrite !andb_true_iff, Pos.eqb_eq, Z.eqb_eq.
    intros [[H1 H2] H3]. apply Bool.eqb_prop in H1. congruence.
Qed.

(** Every attempt up to 40 and every floored product from 0 to 200,
    evaluated. *)
Lemma wait_table :
  forallb (fun a => forallb (wait_table_ok a) (seq 0 201)) (seq 0 41) = true.
Proof. vm_compute. reflexivity. Qed.

Lemma wait_of_floor_exact (a : nat) (k : Z) :
  (a <= 40)%nat -> 0 <= k <= 200 ->
  wait_of_floor a k = of_Z (Z.max 0 (500 * 2 ^ Z.of_nat a + (k - 100)))
  /\ SFsub 53 1024 (of_Z k) (of_Z 100) = of_Z (k - 100)
  /\ wait_of_floor a k
     = SFadd 53 1024 (delayMs a) (SFsub 53 1024 (of_Z k) (of_Z 100)).
Proof.
  intros Ha Hk.
  pose proof wait_table as Ht. rewrite forallb_forall in Ht.
  specialize (Ht a ltac:(apply in_seq; lia)). rewrite forallb_forall in Ht.
  specialize (Ht (Z.to_nat k) ltac:(apply in_seq; lia)).
  unfold wait_table_ok in Ht. rewrite Z2Nat.id in Ht by lia.
  rewrite !andb_true_iff in Ht. destruct Ht as [[H1 H2] H3].
  split; [|split]; apply SF_eqb_eq; assumption.
Qed.

(** The wait of a retry, for a draw of the unit interval and an attempt
    up to 40: the jitter is the float of an integer between -100 and
    100, the wait is the float of [max 0 (500 * 2^a + jitter)], and the
    guard [Math.max(0, ...)] has left the sum as it was. *)
Lemma waitTime_exact (a : nat) (r : spec_float) :
  (a <= 40)%nat -> is_unit_draw r = true ->
  exists j : Z,
    -100 <= j <= 100
    /\ jitter r = of_Z j
    /\ waitTime a r = of_Z (Z.max 0 (500 * 2 ^ Z.of_nat a + j))
    /\ waitTime a r = SFadd 53 1024 (delayMs a) (jitter r).
Proof.
  intros Ha Hr. destruct (floor_of_product r Hr) as (k & Hk & Hfloor).
  exists (k - 100). split; [lia|].
  destruct (wait_of_floor_exact a k Ha Hk) as (H1 & H2 & H3).
  unfold waitTime, jitter. rewrite Hfloor.
  split; [exact H2|]. split; [exact H1 | exact H3].
Qed.

(** A draw whose exact product with 201 lies just under 198 while its
    binary64 product is 198: the jitter is 98 and the first wait lasts
    598 ms. *)
Example wait_at_a_rounding_threshold :
  is_unit_draw (S754_finite false 8872763444968738 (-53)) = true
  /\ jitter (S754_finite false 8872763444968738 (-53)) = of_Z 98
  /\ waitTime 0 (S754_finite false 8872763444968738 (-53)) = of_Z 598.
Proof. vm_compute. repeat split. Qed.

End Binary64.


(** ** One step at a time: what each block does to the state *)

Lemma state_eta (s : State) : {| draws := draws s; trace := trace s |} = s.
Proof. destruct s; reflexivity. Qed.

Lemma toMcpError_run (error : Fault) (s : State) :
  toMcpError error s
  = (classified error,
     {| draws := draws s; trace := trace s ++ console_lines error |}).
Proof.
  unfold classified, toMcpError.
  destruct error as [e | r | v]; simpl.
  - rewrite app_nil_r, state_eta.
    destruct (JsError.name e =? "AbortError"); [reflexivity|].
    destruct (includes "fetch failed" (JsError.message e)
              || (JsError.name e =? "TypeError")); reflexivity.
  - destruct (Response.text r) as [body|]; run_monad.
    + rewrite app_nil_r, state_eta.
      destruct (Response.status r =? 429)%N; [reflexivity|].
      destruct (500 <=? Response.status r)%N; reflexivity.
    + destruct (Response.status r =? 429)%N; [reflexivity|].
      destruct (500 <=? Response.status r)%N; reflexivity.
  - rewrite app_nil_r, state_eta. reflexivity.
Qed.

Lemma fallback_id_run (h : Host) (s : State) :
  exists token,
    fallback_id h s
    = (("unknown_id_" ++ token)%string,
       {| draws := S (draws s); trace := trace s |}).
Proof.
  unfold fallback_id. run_monad. eexists. reflexivity.
Qed.


Lemma push_results_run (h : Host) (rs : list SearchResultItem.t) :
  forall (chunks : list Chunk.t) (s : State),
  exists new d,
    push_results h rs chunks s
    = (chunks ++ new, {| draws := d; trace := trace s |})
    /\ (draws s <= d)%nat
    /\ Forall2 normal_form rs new.
Proof.
  induction rs as [|r rest IH]; intros chunks s; simpl.
  - exists [], (draws s). rewrite app_nil_r, state_eta.
    repeat split; [lia | constructor].
  - unfold bind at 1.
    destruct (SearchResultItem.id r) as [| |i] eqn:Hid.
    1,2: destruct (fallback_id_run h s) as [token ->];
         match goal with
         | |- context [push_results _ _ (_ ++ [?c]) ?s'] =>
             destruct (IH (chunks ++ [c]) s') as (new & d & -> & Hd & Hnew);
             exists (c :: new), d
         end;
         simpl in *; rewrite <- app_assoc;
         (repeat split; [lia|]);
         constructor; [|exact Hnew];
         unfold normal_form; rewrite Hid; simpl;
         (repeat split; try discriminate);
         destruct token; reflexivity.
    unfold ret at 1.
    match goal with
    | |- context [push_results _ _ (_ ++ [?c]) _] =>
        destruct (IH (chunks ++ [c]) s) as (new & d & -> & Hd & Hnew);
        exists (c :: new), d
    end.
    rewrite <- app_assoc. repeat split; [exact Hd|].
    constructor; [|exact Hnew].
    unfold normal_form; rewrite Hid; simpl. repeat split.
Qed.

Lemma push_output_run (h : Host) (items : list OutputItem.t) :
  forall (chunks : list Chunk.t) (s : State),
  exists new d,
    push_output h items chunks s
    = (chunks ++ new, {| draws := d; trace := trace s |})
    /\ (draws s <= d)%nat
    /\ Forall2 normal_form
         (flat_map
            (fun item =>
               if is_file_search_call item
               then elements (OutputItem.results item) else [])
            items)
         new.
Proof.
  induction items as [|item rest IH]; intros chunks s; simpl.
  - exists [], (draws s). rewrite app_nil_r, state_eta.
    repeat split; [lia | constructor].
  - unfold bind at 1. fold (is_file_search_call item).
    destruct (is_file_search_call item).
    + destruct (push_results_run h (elements (OutputItem.results item)) chunks s)
        as (new1 & d1 & -> & Hd1 & Hnew1).
      destruct (IH (chunks ++ new1) {| draws := d1; trace := trace s |})
        as (new2 & d2 & -> & Hd2 & Hnew2).
      exists (new1 ++ new2), d2. simpl in *. rewrite <- app_assoc.
      repeat split; [lia|]. apply Forall2_app; assumption.
    + unfold ret at 1.
      destruct (IH chunks s) as (new & d & -> & Hd & Hnew).
      exists new, d. repeat split; assumption.
Qed.

Lemma extract_chunks_run (h : Host) (responseData : OpenAiFileSearchResponse.t)
    (s : State) :
  exists chunks d,
    extract_chunks h responseData s
    = (chunks, {| draws := d; trace := trace s |})
    /\ (draws s <= d)%nat
    /\ Forall2 normal_form (selected_results responseData) chunks.
Proof.
  unfold extract_chunks, selected_results.
  destruct (push_output_run h
              (nullish_coalesce (OpenAiFileSearchResponse.output responseData) [])
              [] s) as (new & d & Heq & Hd & Hnew).
  exists new, d. rewrite Heq. repeat split; assumption.
Qed.

Lemma try_block_throws (h : Host) (attempt : nat) (error : Fault) (s : State) :
  fault_of (fetch h attempt) = Some error ->
  try_block h attempt s
  = (inr error, {| draws := draws s; trace := trace s ++ [EvFetch attempt] |}).
Proof.
  unfold fault_of, try_block. run_monad.
  destruct (fetch h attempt) as [e | response].
  - intros [= <-]. reflexivity.
  - destruct (negb (Response.ok response)).
    + intros [= <-]. reflexivity.
    + destruct (Response.json response) as [e | responseData];
        [intros [= <-]; reflexivity | discriminate].
Qed.

Lemma try_block_returns (h : Host) (attempt : nat) (s : State) :
  fault_of (fetch h attempt) = None ->
  exists response responseData chunks d,
    fetch h attempt = fetch_resolved response
    /\ Response.ok response = true
    /\ Response.json response = inr responseData
    /\ try_block h attempt s
       = (inl chunks, {| draws := d; trace := trace s ++ [EvFetch attempt] |})
    /\ extract_chunks h responseData
         {| draws := draws s; trace := trace s ++ [EvFetch attempt] |}
       = (chunks, {| draws := d; trace := trace s ++ [EvFetch attempt] |}).
Proof.
  unfold fault_of, try_block. run_monad.
  destruct (fetch h attempt) as [e | response]; [discriminate|].
  destruct (Response.ok response) eqn:Hok; simpl; [|discriminate].
  destruct (Response.json response) as [e | responseData] eqn:Hjson;
    [discriminate|].
  intros _.
  destruct (extract_chunks_run h responseData
              {| draws := draws s; trace := trace s ++ [EvFetch attempt] |})
    as (chunks & d & Heq & _ & _).
  exists response, responseData, chunks, d. rewrite Heq. simpl in *.
  repeat split; assumption.
Qed.

Lemma loop_body_returns (h : Host) (budget attempt : nat) (s : State) :
  fault_of (fetch h attempt) = None ->
  exists chunks d,
    loop_body h budget attempt s
    = (Return chunks, {| draws := d; trace := trace s ++ [EvFetch attempt] |}).
Proof.
  intros Hf.
  destruct (try_block_returns h attempt s Hf)
    as (response & responseData & chunks & d & _ & _ & _ & Htry & _).
  exists chunks, d. unfold loop_body, bind. rewrite Htry. reflexivity.
Qed.

Lemma loop_body_retries (h : Host) (budget attempt : nat) (error : Fault)
    (s : State) :
  fault_of (fetch h attempt) = Some error ->
  retries budget attempt (classified error) = true ->
  loop_body h budget attempt s
  = (Continue,
     {| draws := S (draws s);
        trace := (trace s ++ [EvFetch attempt]) ++ console_lines error
                   ++ [EvDelay (waitTime attempt (random h (draws s)))] |}).
Proof.
  intros Hf Hr. unfold loop_body, bind.
  rewrite (try_block_throws h attempt error s Hf).
  unfold catch_block, bind. rewrite toMcpError_run.
  fold (retries budget attempt (classified error)). rewrite Hr.
  run_monad. rewrite <- app_assoc. reflexivity.
Qed.

Lemma loop_body_throws (h : Host) (budget attempt : nat) (error : Fault)
    (s : State) :
  fault_of (fetch h attempt) = Some error ->
  retries budget attempt (classified error) = false ->
  loop_body h budget attempt s
  = (Throw (classified error),
     {| draws := draws s;
        trace := (trace s ++ [EvFetch attempt]) ++ console_lines error |}).
Proof.
  intros Hf Hr. unfold loop_body, bind.
  rewrite (try_block_throws h attempt error s Hf).
  unfold catch_block, bind. rewrite toMcpError_run.
  fold (retries budget attempt (classified error)). rewrite Hr.
  reflexivity.
Qed.

(** ** The retry loop as a whole *)

Lemma console_lines_no_fetch (error : Fault) (j : nat) :
  ~ In (EvFetch j) (console_lines error).
Proof.
  destruct error as [e | r | v]; simpl; try tauto.
  destruct (Response.text r); simpl; [tauto|].
  intros [H|[]]; discriminate.
Qed.

Lemma retries_bound (budget attempt : nat) (e : McpError.t) :
  retries budget attempt e = true ->
  isRetryable (McpError.code e) = true /\ attempt < budget - 1.
Proof.
  unfold retries. rewrite andb_true_iff, Nat.ltb_lt. tauto.
Qed.

Ltac split_in :=
  repeat match goal with
    | H : In _ (_ ++ _) |- _ => apply in_app_or in H; destruct H as [H|H]
    | H : In _ (_ :: _) |- _ => destruct H as [H|H]
    | H : In _ [] |- _ => destruct H
    | H : In (EvFetch _) (console_lines _) |- _ =>
        exfalso; exact (console_lines_no_fetch _ _ H)
    | H : EvFetch _ = EvFetch _ |- _ => injection H as H; subst
    | H : EvDelay _ = EvFetch _ |- _ => discriminate H
    end.

(** Started inside its budget, the loop ends by returning or by throwing
    a classified error, after calls that are numbered consecutively from
    [attempt]; at every call that failed, the next call is made exactly
    when the condition of line 264 holds, and otherwise the classified
    error of that call is the outcome. *)
Lemma retry_loop_run (h : Host) (budget : nat) :
  forall (remaining attempt : nat) (s : State),
    attempt + remaining = budget ->
    0 < remaining ->
    exists out s' evs,
      retry_loop h budget remaining attempt s = (out, s')
      /\ trace s' = trace s ++ evs
      /\ In (EvFetch attempt) evs
      /\ (forall j, In (EvFetch j) evs -> attempt <= j < budget)
      /\ (forall msg, out <> FellThrough msg)
      /\ (forall i error,
            In (EvFetch i) evs ->
            fault_of (fetch h i) = Some error ->
            (In (EvFetch (S i)) evs <-> retries budget i (classified error) = true)
            /\ (retries budget i (classified error) = false ->
                out = Failed (classified error)))
      /\ (forall i,
            In (EvFetch i) evs ->
            fault_of (fetch h i) = None ->
            ~ In (EvFetch (S i)) evs /\ exists chunks, out = Returned chunks).
Proof.
  induction remaining as [|k IH]; intros a s Hsum Hpos; [lia|].
  cbn [retry_loop]. unfold bind at 1.
  destruct (fault_of (fetch h a)) as [f|] eqn:Hf.
  - destruct (retries budget a (classified f)) eqn:Hr.
    + rewrite (loop_body_retries h budget a f s Hf Hr).
      destruct (retries_bound _ _ _ Hr) as [_ Hlt].
      match goal with
      | |- context [retry_loop h budget k (S a) ?s1] =>
          destruct (IH (S a) s1 ltac:(lia) ltac:(lia))
            as (out & s' & evs & Heq & Htr & Hin & Hidx & Hnf & Hdec & Hsucc)
      end.
      exists out, s',
        ([EvFetch a] ++ console_lines f
           ++ [EvDelay (waitTime a (random h (draws s)))] ++ evs).
      split; [exact Heq|].
      split; [rewrite Htr; simpl; rewrite <- !app_assoc; reflexivity|].
      split; [left; reflexivity|].
      split; [intros j Hj; split_in; [lia | apply Hidx in Hj; lia]|].
      split; [exact Hnf|].
      split.
      * intros i error Hi Herr. split_in.
        -- rewrite Hf in Herr. injection Herr as <-. rewrite Hr.
           split; [|discriminate].
           split; [reflexivity|]. intros _.
           simpl. rewrite !in_app_iff. simpl. tauto.
        -- destruct (Hdec i error Hi Herr) as [Hiff Hfail].
           split; [|exact Hfail]. rewrite <- Hiff. split.
           ++ intros HS. pose proof (Hidx i Hi). split_in; [lia | exact HS].
           ++ intros HS. simpl. rewrite !in_app_iff. simpl. tauto.
      * intros i Hi Hnone. split_in; [congruence|].
        destruct (Hsucc i Hi Hnone) as [Hno Hret]. split; [|exact Hret].
        intros HS. pose proof (Hidx i Hi). split_in; [lia | exact (Hno HS)].
    + rewrite (loop_body_throws h budget a f s Hf Hr).
      eexists (Failed (classified f)), _, ([EvFetch a] ++ console_lines f).
      split; [reflexivity|].
      split; [simpl; rewrite <- app_assoc; reflexivity|].
      split; [left; reflexivity|].
      split; [intros j Hj; split_in; lia|].
      split; [discriminate|].
      split.
      * intros i error Hi Herr. split_in.
        rewrite Hf in Herr. injection Herr as <-. rewrite Hr.
        split; [|reflexivity]. split; [|discriminate].
        intros HS. split_in. lia.
      * intros i Hi Hnone. split_in. congruence.
  - destruct (loop_body_returns h budget a s Hf) as (chunks & d & ->).
    eexists (Returned chunks), _, [EvFetch a].
    split; [reflexivity|].
    split; [reflexivity|].
    split; [left; reflexivity|].
    split; [intros j Hj; split_in; lia|].
    split; [discriminate|].
    split.
    + intros i error Hi Herr. split_in. congruence.
    + intros i Hi _. split_in. split; [|eauto].
      intros HS. split_in. lia.
Qed.

(** ** The classifier, branch by branch *)

Lemma toMcpError_fst (error : Fault) (s : State) :
  fst (toMcpError error s) = classified error.
Proof. rewrite toMcpError_run. reflexivity. Qed.

Lemma classified_abort (e : JsError.t) :
  JsError.name e = "AbortError" ->
  classified (an_error e)
  = McpError.mk OPENAI_TIMEOUT
      "OpenAI API request timed out after 30 seconds." no_details.
Proof.
  intros Hn. unfold classified, toMcpError. simpl. rewrite Hn. reflexivity.
Qed.

Lemma classified_generic (e : JsError.t) :
  JsError.name e <> "AbortError" ->
  classified (an_error e)
  = McpError.mk
      (if includes "fetch failed" (JsError.message e)
          || (JsError.name e =? "TypeError")
       then OPENAI_NETWORK_ERROR else INTERNAL_SERVER_ERROR)
      (JsError.message e) no_details.
Proof.
  intros Hn. apply String.eqb_neq in Hn.
  unfold classified, toMcpError. simpl. rewrite Hn.
  destruct (includes "fetch failed" (JsError.message e)
            || (JsError.name e =? "TypeError")); reflexivity.
Qed.

Lemma classified_response (r : Response.t) :
  classified (a_response r)
  = let status := Response.status r in
    if (status =? 429)%N then
      McpError.mk OPENAI_RATE_LIMIT "OpenAI API rate limit exceeded."
        (status_details status (errorText_of r))
    else if (500 <=? status)%N then
      McpError.mk OPENAI_UPSTREAM_ERROR
        "OpenAI API returned an upstream server error."
        (status_details status (errorText_of r))
    else
      McpError.mk INTERNAL_SERVER_ERROR
        ("OpenAI API request failed with status " ++ decimal status ++ ".")
        (status_details status (errorText_of r)).
Proof.
  unfold classified, toMcpError, errorText_of. simpl.
  destruct (Response.text r); run_monad;
    destruct (Response.status r =? 429)%N;
    try destruct (500 <=? Response.status r)%N; reflexivity.
Qed.

Lemma fault_of_not_ok (h : Host) (i : nat) (r : Response.t) :
  fetch h i = fetch_resolved r ->
  Response.ok r = false ->
  fault_of (fetch h i) = Some (a_response r).
Proof.
  intros -> Hok. simpl. rewrite Hok. reflexivity.
Qed.

Lemma not_ok_of_status (r : Response.t) :
  (Response.status r < 200 \/ 299 < Response.status r)%N ->
  Response.ok r = false.
Proof.
  intros H. unfold Response.ok. apply andb_false_iff.
  rewrite N.leb_gt, N.leb_gt. exact H.
Qed.

(** C9. The classifier is a function of the fault alone: two runs on the
    same fault, from whatever states, give the same McpError (same code,
    message and details), and the fields of the fault it never reads (the
    stack of an Error, the parsed body of a Response) do not matter. *)
Theorem toMcpError_deterministic :
  (forall (error : Fault) (s1 s2 : State),
      fst (toMcpError error s1) = fst (toMcpError error s2))
  /\ (forall (e : JsError.t) (stack' : option string) (s1 s2 : State),
        fst (toMcpError (an_error e) s1)
        = fst (toMcpError
                 (an_error (JsError.mk (JsError.name e) (JsError.message e) stack'))
                 s2))
  /\ (forall (r : Response.t) (json' : JsError.t + OpenAiFileSearchResponse.t)
             (s1 s2 : State),
        fst (toMcpError (a_response r) s1)
        = fst (toMcpError
                 (a_response (Response.mk (Response.status r) (Response.text r) json'))
                 s2)).
Proof.
  split; [|split].
  - intros error s1 s2. rewrite !toMcpError_fst. reflexivity.
  - intros e stack' s1 s2. rewrite !toMcpError_fst.
    unfold classified, toMcpError. reflexivity.
  - intros r json' s1 s2. rewrite !toMcpError_fst, !classified_response.
    reflexivity.
Qed.

(** C10. An Error named "AbortError" is classified as OPENAI_TIMEOUT with
    the fixed message and no details, whatever its message says; the
    state is left as it was. *)
Theorem abort_takes_precedence (e : JsError.t) (s : State) :
  JsError.name e = "AbortError" ->
  toMcpError (an_error e) s
  = (McpError.mk OPENAI_TIMEOUT
       "OpenAI API request timed out after 30 seconds." no_details,
     s).
Proof.
  intros Hn. rewrite toMcpError_run, (classified_abort e Hn). simpl.
  rewrite app_nil_r, state_eta. reflexivity.
Qed.

Lemma abort_takes_precedence_witness :
  let e := JsError.mk "AbortError" "fetch failed" None in
  includes "fetch failed" (JsError.message e) = true
  /\ toMcpError (an_error e) initial
     = (McpError.mk OPENAI_TIMEOUT
          "OpenAI API request timed out after 30 seconds." no_details,
        initial).
Proof.
  split; [reflexivity|].
  apply (abort_takes_precedence (JsError.mk "AbortError" "fetch failed" None)).
  reflexivity.
Defined.

(** C6 (as amended). A generic fault, that is an Error not named
    "AbortError", is classified as OPENAI_NETWORK_ERROR exactly when its
    message contains "fetch failed" or its name is "TypeError", and as
    INTERNAL_SERVER_ERROR otherwise; either way the McpError carries the
    fault's message and no details. *)
Theorem generic_fault_classification (e : JsError.t) (s : State) :
  JsError.name e <> "AbortError" ->
  let m := fst (toMcpError (an_error e) s) in
  (McpError.code m = OPENAI_NETWORK_ERROR
   <-> includes "fetch failed" (JsError.message e) = true
       \/ JsError.name e = "TypeError")
  /\ (McpError.code m = INTERNAL_SERVER_ERROR
      <-> ~ (includes "fetch failed" (JsError.message e) = true
             \/ JsError.name e = "TypeError"))
  /\ McpError.message m = JsError.message e
  /\ McpError.details m = no_details.
Proof.
  intros Hn m. subst m. rewrite toMcpError_fst, (classified_generic e Hn).
  cbn [McpError.code McpError.message McpError.details].
  rewrite <- String.eqb_eq, <- orb_true_iff.
  destruct (includes "fetch failed" (JsError.message e)
            || (JsError.name e =? "TypeError")).
  - repeat split; try reflexivity; try discriminate; intros H; tauto.
  - repeat split; try reflexivity; try discriminate; intros H; tauto.
Qed.

Lemma generic_fault_classification_witness :
  let e := JsError.mk "Error" "fetch failed: ECONNRESET" None in
  JsError.name e <> "AbortError"
  /\ McpError.code (fst (toMcpError (an_error e) initial)) = OPENAI_NETWORK_ERROR
  /\ McpError.message (fst (toMcpError (an_error e) initial))
     = "fetch failed: ECONNRESET".
Proof.
  assert (Hn : "Error" <> "AbortError") by discriminate.
  pose proof (generic_fault_classification
                (JsError.mk "Error" "fetch failed: ECONNRESET" None) initial Hn)
    as (Hnet & _ & Hmsg & _).
  split; [exact Hn|]. split; [|exact Hmsg].
  apply Hnet. left. reflexivity.
Defined.

(** C6 as stated fails: a TypeError whose message has no "fetch failed"
    in it is a generic fault, and it is classified as
    OPENAI_NETWORK_ERROR. *)
Lemma network_error_without_indicator :
  let e := JsError.mk "TypeError" "terminated" None in
  JsError.name e <> "AbortError"
  /\ ~ (McpError.code (fst (toMcpError (an_error e) initial)) = OPENAI_NETWORK_ERROR
        <-> includes "fetch failed" (JsError.message e) = true).
Proof.
  split; [discriminate|].
  intros [Hcode _]. specialize (Hcode eq_refl). discriminate Hcode.
Qed.

(** C7. The classifier at the failing inputs: an Error and a TypeError
    whose message is the empty string. The McpError keeps the empty
    message, as INTERNAL_SERVER_ERROR for the first and as
    OPENAI_NETWORK_ERROR for the second; the non-empty default messages
    written at lines 69 and 75 are not substituted. They are attached
    with [??], which leaves a string as it is, so no Error ever gets
    them. *)
Lemma empty_message_not_defaulted :
  let internal := fst (toMcpError (an_error (JsError.mk "Error" "" None)) initial) in
  let network := fst (toMcpError (an_error (JsError.mk "TypeError" "" None)) initial) in
  McpError.code internal = INTERNAL_SERVER_ERROR
  /\ ~ McpError.message internal <> ""
  /\ McpError.code network = OPENAI_NETWORK_ERROR
  /\ ~ McpError.message network <> "".
Proof.
  cbv zeta. repeat split; try reflexivity; intros H; apply H; reflexivity.
Qed.

(** ** Counting calls and sleeps *)

Lemma sleeps_of_app (evs1 evs2 : list Event) :
  sleeps_of (evs1 ++ evs2) = sleeps_of evs1 ++ sleeps_of evs2.
Proof.
  induction evs1 as [|ev evs1 IH]; simpl; [reflexivity|].
  destruct ev; simpl; rewrite IH; reflexivity.
Qed.

Lemma console_lines_quiet (error : Fault) :
  filter is_fetch (console_lines error) = []
  /\ sleeps_of (console_lines error) = [].
Proof.
  destruct error as [e | r | v]; simpl; try (split; reflexivity).
  destruct (Response.text r); split; reflexivity.
Qed.

Lemma calls_after (s : State) (d : nat) (evs : list Event) :
  calls {| draws := d; trace := trace s ++ evs |}
  = calls s + List.length (filter is_fetch evs).
Proof.
  unfold calls. simpl. rewrite filter_app, length_app. reflexivity.
Qed.

Lemma retry_loop_step (h : Host) (budget k attempt : nat) (s : State) :
  retry_loop h budget (S k) attempt s
  = let (c, s1) := loop_body h budget attempt s in
    match c with
    | Return chunks => (Returned chunks, s1)
    | Continue => retry_loop h budget k (S attempt) s1
    | Throw e => (Failed e, s1)
    end.
Proof.
  cbn [retry_loop]. unfold bind at 1.
  destruct (loop_body h budget attempt s) as [[chunks| |e] s1]; reflexivity.
Qed.

Lemma execute_unfold (h : Host) :
  execute h = retry_loop h maxAttempts 3 0 initial.
Proof. reflexivity. Qed.

Lemma retry_loop_calls (h : Host) (budget : nat) :
  forall (remaining attempt : nat) (s : State),
    calls s + Nat.min 1 remaining
    <= calls (snd (retry_loop h budget remaining attempt s))
    <= calls s + remaining.
Proof.
  induction remaining as [|k IH]; intros a s.
  - simpl. lia.
  - rewrite retry_loop_step.
    destruct (fault_of (fetch h a)) as [f|] eqn:Hf.
    + destruct (console_lines_quiet f) as [Hq _].
      destruct (retries budget a (classified f)) eqn:Hr.
      * rewrite (loop_body_retries h budget a f s Hf Hr).
        match goal with
        | |- context [retry_loop _ _ k (S a) ?s1] =>
            pose proof (IH (S a) s1) as Hk;
            assert (Hc : calls s1 = calls s + 1)
        end.
        { rewrite <- app_assoc, calls_after. simpl.
          rewrite filter_app, Hq. reflexivity. }
        rewrite Hc in Hk. simpl Nat.min. lia.
      * rewrite (loop_body_throws h budget a f s Hf Hr).
        cbn [snd]. rewrite <- app_assoc, calls_after. simpl. rewrite Hq.
        simpl. lia.
    + destruct (loop_body_returns h budget a s Hf) as (chunks & d & ->).
      cbn [snd]. rewrite calls_after. simpl. lia.
Qed.

Lemma loop_body_continue_bound (h : Host) (budget attempt : nat) (s : State) :
  fst (loop_body h budget attempt s) = Continue -> attempt < budget - 1.
Proof.
  destruct (fault_of (fetch h attempt)) as [f|] eqn:Hf.
  - destruct (retries budget attempt (classified f)) eqn:Hr.
    + intros _. apply (retries_bound _ _ _ Hr).
    + rewrite (loop_body_throws h budget attempt f s Hf Hr). discriminate.
  - destruct (loop_body_returns h budget attempt s Hf) as (chunks & d & ->).
    discriminate.
Qed.

(** ** The claims about whole runs *)

(** C1. Every invocation ends in exactly one of the two terminal states:
    it returns a chunk list, or it throws a classified McpError; it never
    does both, it never ends with neither, and it gets there after at
    least one and at most [maxAttempts] calls. The question only enters
    the request body, so the statement is over every behaviour of the
    upstream. *)
Theorem execute_one_terminal_outcome (h : Host) :
  let out := fst (execute h) in
  ((exists chunks, out = Returned chunks) \/ (exists e, out = Failed e))
  /\ ~ ((exists chunks, out = Returned chunks) /\ (exists e, out = Failed e))
  /\ 1 <= calls (snd (execute h)) <= maxAttempts.
Proof.
  unfold execute, execute_with. cbv zeta.
  destruct (retry_loop_run h maxAttempts maxAttempts 0 initial eq_refl)
    as (out & s' & evs & Heq & _ & _ & _ & Hnf & _ & _);
    [unfold maxAttempts; lia|].
  pose proof (retry_loop_calls h maxAttempts maxAttempts 0 initial) as Hc.
  rewrite Heq in *. cbn [fst snd] in *.
  split; [|split].
  - destruct out as [chunks | e | msg]; [left | right | exfalso]; eauto.
    exact (Hnf msg eq_refl).
  - intros [[chunks Hc1] [e Hc2]]. congruence.
  - unfold maxAttempts in *. simpl in Hc. exact Hc.
Qed.

(** C8. Whatever the positive budget, the last iteration of the loop
    never ends with [continue], and the loop never runs out: the [throw]
    placed after it is not reached. *)
Theorem trailing_throw_unreachable (h : Host) (budget : nat) :
  0 < budget ->
  (forall s, fst (loop_body h budget (budget - 1) s) <> Continue)
  /\ (forall msg, fst (execute_with budget h) <> FellThrough msg).
Proof.
  intros Hpos. split.
  - intros s Hc. apply loop_body_continue_bound in Hc. lia.
  - unfold execute_with.
    destruct (retry_loop_run h budget budget 0 initial eq_refl Hpos)
      as (out & s' & evs & -> & _ & _ & _ & Hnf & _ & _).
    exact Hnf.
Qed.

Lemma trailing_throw_unreachable_witness :
  0 < maxAttempts
  /\ forall msg, fst (execute (always (http 500 "oops"))) <> FellThrough msg.
Proof.
  assert (Hpos : 0 < maxAttempts) by (unfold maxAttempts; lia).
  split; [exact Hpos|].
  exact (proj2 (trailing_throw_unreachable (always (http 500 "oops"))
                  maxAttempts Hpos)).
Defined.

(** With an empty budget the loop body never runs and the statement after
    the loop is what the caller gets: the hypothesis of C8 is needed. *)
Example empty_budget_falls_through :
  fst (execute_with 0 (always (http 500 "oops")))
  = FellThrough "OpenAI request failed after multiple retries.".
Proof. reflexivity. Qed.

Lemma isRetryable_iff (c : ErrorCode) :
  isRetryable c = true <-> In c retryable_codes.
Proof.
  destruct c; simpl; split; intros H; try reflexivity; try discriminate;
    intuition discriminate.
Qed.

Lemma retries_iff (budget attempt : nat) (e : McpError.t) :
  retries budget attempt e = true
  <-> In (McpError.code e) retryable_codes /\ attempt < budget - 1.
Proof.
  unfold retries. rewrite andb_true_iff, Nat.ltb_lt, isRetryable_iff.
  reflexivity.
Qed.

Lemma classified_500 (r : Response.t) :
  Response.status r = 500%N ->
  Response.ok r = false
  /\ classified (a_response r)
     = McpError.mk OPENAI_UPSTREAM_ERROR
         "OpenAI API returned an upstream server error."
         (status_details 500 (errorText_of r)).
Proof.
  intros Hs. split.
  - apply not_ok_of_status. rewrite Hs. right. reflexivity.
  - rewrite classified_response, Hs. reflexivity.
Qed.

(** C2. In a run of [execute] (budget [maxAttempts] = 3), after a call
    number [i] that failed, call number [i + 1] is made if and only if
    the classified error has one of the four retryable codes and
    [i < maxAttempts - 1]; otherwise that classified error is what the
    caller gets. Three HTTP 500 answers in a row make exactly three
    calls and two sleeps and end with an OPENAI_UPSTREAM_ERROR. *)
Theorem retry_policy (h : Host) :
  (forall (i : nat) (error : Fault),
      In (EvFetch i) (trace (snd (execute h))) ->
      fault_of (fetch h i) = Some error ->
      let e := classified error in
      (In (EvFetch (S i)) (trace (snd (execute h)))
       <-> In (McpError.code e)
             [ OPENAI_RATE_LIMIT; OPENAI_UPSTREAM_ERROR;
               OPENAI_NETWORK_ERROR; OPENAI_TIMEOUT ]
           /\ i < maxAttempts - 1)
      /\ (~ (In (McpError.code e)
               [ OPENAI_RATE_LIMIT; OPENAI_UPSTREAM_ERROR;
                 OPENAI_NETWORK_ERROR; OPENAI_TIMEOUT ]
             /\ i < maxAttempts - 1) ->
          fst (execute h) = Failed e))
  /\ ((forall i, i < 3 ->
         exists r, fetch h i = fetch_resolved r /\ Response.status r = 500%N) ->
      calls (snd (execute h)) = 3
      /\ List.length (sleeps (snd (execute h))) = 2
      /\ exists e, fst (execute h) = Failed e
                   /\ McpError.code e = OPENAI_UPSTREAM_ERROR).
Proof.
  split.
  - unfold execute, execute_with.
    destruct (retry_loop_run h maxAttempts maxAttempts 0 initial eq_refl)
      as (out & s' & evs & Heq & Htr & _ & _ & _ & Hdec & _);
      [unfold maxAttempts; lia|].
    rewrite Heq. cbn [fst snd]. simpl in Htr. rewrite Htr.
    intros i error Hi Hf.
    destruct (Hdec i error Hi Hf) as [Hiff Hfail].
    fold retryable_codes. rewrite <- retries_iff. split; [exact Hiff|].
    intros Hno. apply Hfail.
    destruct (retries maxAttempts i (classified error)); congruence.
  - intros H500.
    destruct (H500 0 ltac:(lia)) as (r0 & Hf0 & Hs0).
    destruct (H500 1 ltac:(lia)) as (r1 & Hf1 & Hs1).
    destruct (H500 2 ltac:(lia)) as (r2 & Hf2 & Hs2).
    destruct (classified_500 r0 Hs0) as [Hok0 Hc0].
    destruct (classified_500 r1 Hs1) as [Hok1 Hc1].
    destruct (classified_500 r2 Hs2) as [Hok2 Hc2].
    pose proof (fault_of_not_ok h 0 r0 Hf0 Hok0) as Ht0.
    pose proof (fault_of_not_ok h 1 r1 Hf1 Hok1) as Ht1.
    pose proof (fault_of_not_ok h 2 r2 Hf2 Hok2) as Ht2.
    assert (Hr0 : retries maxAttempts 0 (classified (a_response r0)) = true)
      by (rewrite Hc0; reflexivity).
    assert (Hr1 : retries maxAttempts 1 (classified (a_response r1)) = true)
      by (rewrite Hc1; reflexivity).
    assert (Hr2 : retries maxAttempts 2 (classified (a_response r2)) = false)
      by (rewrite Hc2; reflexivity).
    destruct (console_lines_quiet (a_response r0)) as [Hq0 Hz0].
    destruct (console_lines_quiet (a_response r1)) as [Hq1 Hz1].
    destruct (console_lines_quiet (a_response r2)) as [Hq2 Hz2].
    rewrite !execute_unfold.
    rewrite retry_loop_step, (loop_body_retries h _ 0 _ _ Ht0 Hr0).
    rewrite retry_loop_step, (loop_body_retries h _ 1 _ _ Ht1 Hr1).
    rewrite retry_loop_step, (loop_body_throws h _ 2 _ _ Ht2 Hr2).
    cbn [fst snd]. unfold calls, sleeps. cbn [trace draws initial].
    rewrite !filter_app, !sleeps_of_app, Hq0, Hq1, Hq2, Hz0, Hz1, Hz2.
    split; [reflexivity|]. split; [reflexivity|].
    eexists. split; [reflexivity|]. rewrite Hc2. reflexivity.
Qed.

Lemma retry_policy_witness :
  let h := always (http 500 "oops") in
  (In (EvFetch 1) (trace (snd (execute h)))
   <-> In OPENAI_UPSTREAM_ERROR
         [ OPENAI_RATE_LIMIT; OPENAI_UPSTREAM_ERROR;
           OPENAI_NETWORK_ERROR; OPENAI_TIMEOUT ]
       /\ 0 < maxAttempts - 1)
  /\ calls (snd (execute h)) = 3
  /\ List.length (sleeps (snd (execute h))) = 2.
Proof.
  cbv zeta.
  pose proof (retry_policy (always (http 500 "oops"))) as [Hstep Hrun].
  split.
  - refine (proj1 (Hstep 0
                     (a_response
                        (Response.mk 500 (Some "oops")
                           (inl (JsError.mk "SyntaxError" "Unexpected token" None))))
                     _ eq_refl)).
    vm_compute. left. reflexivity.
  - assert (H500 : forall i, i < 3 ->
                     exists r, fetch (always (http 500 "oops")) i = fetch_resolved r
                               /\ Response.status r = 500%N)
      by (intros i _; eexists; split; reflexivity).
    destruct (Hrun H500) as (Hcalls & Hsleeps & _).
    split; assumption.
Defined.

(** C3. A Response with a non-2xx status [s] is classified as
    OPENAI_RATE_LIMIT when [s] is 429, as OPENAI_UPSTREAM_ERROR when [s]
    is at least 500, and as INTERNAL_SERVER_ERROR for any other status,
    each time with details [{status: s, errorText}] where [errorText] is
    the body text, or the placeholder when the body cannot be read. A 401
    answer to the first call therefore ends the run after that single
    call with an INTERNAL_SERVER_ERROR whose details carry status 401. *)
Theorem http_status_classification :
  (forall (r : Response.t) (s : State),
      Response.ok r = false ->
      let e := fst (toMcpError (a_response r) s) in
      let status := Response.status r in
      (status = 429%N -> McpError.code e = OPENAI_RATE_LIMIT)
      /\ ((500 <= status)%N -> McpError.code e = OPENAI_UPSTREAM_ERROR)
      /\ (status <> 429%N -> (status < 500)%N ->
          McpError.code e = INTERNAL_SERVER_ERROR)
      /\ McpError.details e = status_details status (errorText_of r))
  /\ (forall (h : Host) (r : Response.t),
        fetch h 0 = fetch_resolved r ->
        Response.status r = 401%N ->
        calls (snd (execute h)) = 1
        /\ sleeps (snd (execute h)) = []
        /\ exists e, fst (execute h) = Failed e
                     /\ McpError.code e = INTERNAL_SERVER_ERROR
                     /\ McpError.details e = status_details 401 (errorText_of r)).
Proof.
  split.
  - intros r s _. cbv zeta. rewrite toMcpError_fst, classified_response.
    cbv zeta.
    destruct (N.eqb_spec (Response.status r) 429) as [E429|N429].
    + rewrite E429. repeat split; try reflexivity; intros; lia.
    + destruct (N.leb_spec 500 (Response.status r)) as [Hge|Hlt].
      * repeat split; try reflexivity; intros; lia.
      * repeat split; try reflexivity; intros; lia.
  - intros h r Hf Hs.
    assert (Hok : Response.ok r = false)
      by (apply not_ok_of_status; rewrite Hs; right; reflexivity).
    pose proof (fault_of_not_ok h 0 r Hf Hok) as Ht.
    assert (Hc : classified (a_response r)
                 = McpError.mk INTERNAL_SERVER_ERROR
                     "OpenAI API request failed with status 401."
                     (status_details 401 (errorText_of r)))
      by (rewrite classified_response, Hs; reflexivity).
    assert (Hr : retries maxAttempts 0 (classified (a_response r)) = false)
      by (rewrite Hc; reflexivity).
    destruct (console_lines_quiet (a_response r)) as [Hq Hz].
    rewrite !execute_unfold.
    rewrite retry_loop_step, (loop_body_throws h _ 0 _ _ Ht Hr).
    cbn [fst snd]. unfold calls, sleeps. cbn [trace draws initial].
    rewrite !filter_app, !sleeps_of_app, Hq, Hz.
    split; [reflexivity|]. split; [reflexivity|].
    eexists. split; [reflexivity|]. rewrite Hc. split; reflexivity.
Qed.

Lemma http_status_classification_witness :
  let h := always (http 401 "unauthorized") in
  calls (snd (execute h)) = 1
  /\ McpError.code (fst (toMcpError
                           (a_response (Response.mk 503 None
                                          (inr (OpenAiFileSearchResponse.mk undefined))))
                           initial))
     = OPENAI_UPSTREAM_ERROR.
Proof.
  cbv zeta.
  pose proof http_status_classification as [Hclass Hrun].
  split.
  - exact (proj1 (Hrun (always (http 401 "unauthorized")) _ eq_refl eq_refl)).
  - refine (proj1 (proj2 (Hclass
                            (Response.mk 503 None
                               (inr (OpenAiFileSearchResponse.mk undefined)))
                            initial eq_refl)) _).
    vm_compute. discriminate.
Defined.

(** C4. The normaliser emits one chunk per result item of the output
    items that are tagged "file_search_call" and hold a proper array, in
    the order of the response: an id that is present is kept and a
    missing one is replaced by a non-empty generated token, a missing
    text becomes the empty string and a missing score becomes 0. Items
    of another type or with a malformed result list contribute nothing,
    so a response without any file-search call gives the empty list, and
    a run that receives it returns the empty list instead of failing. *)
Theorem normaliser_one_chunk_per_result
    (h : Host) (responseData : OpenAiFileSearchResponse.t) :
  (forall s : State,
      Forall2 normal_form (selected_results responseData)
        (fst (extract_chunks h responseData s))
      /\ List.length (fst (extract_chunks h responseData s))
         = List.length (selected_results responseData))
  /\ ((forall item,
          In item (nullish_coalesce (OpenAiFileSearchResponse.output responseData) []) ->
          OutputItem.type item <> "file_search_call"
          \/ isArray (OutputItem.results item) = false) ->
      (forall s : State, fst (extract_chunks h responseData s) = [])
      /\ (forall response,
            fetch h 0 = fetch_resolved response ->
            Response.ok response = true ->
            Response.json response = inr responseData ->
            fst (execute h) = Returned []
            /\ calls (snd (execute h)) = 1)).
Proof.
  assert (Hall : forall s : State,
             Forall2 normal_form (selected_results responseData)
               (fst (extract_chunks h responseData s))).
  { intros s.
    destruct (extract_chunks_run h responseData s) as (chunks & d & -> & _ & Hn).
    exact Hn. }
  split.
  - intros s. split; [apply Hall|].
    symmetry. apply (Forall2_length (Hall s)).
  - intros Hnone.
    assert (Hsel : selected_results responseData = []).
    { unfold selected_results.
      induction (nullish_coalesce (OpenAiFileSearchResponse.output responseData) [])
        as [|item rest IH]; [reflexivity|].
      simpl. rewrite IH by (intros it Hit; apply Hnone; right; exact Hit).
      rewrite app_nil_r.
      destruct (Hnone item (or_introl eq_refl)) as [Hty | Harr];
        unfold is_file_search_call.
      - apply String.eqb_neq in Hty. rewrite Hty. reflexivity.
      - rewrite Harr, andb_false_r. reflexivity. }
    assert (Hempty : forall s : State, fst (extract_chunks h responseData s) = []).
    { intros s. pose proof (Hall s) as Hs. rewrite Hsel in Hs.
      inversion Hs. reflexivity. }
    split; [exact Hempty|].
    intros response Hf Hok Hjson.
    assert (Ht : fault_of (fetch h 0) = None)
      by (rewrite Hf; simpl; rewrite Hok, Hjson; reflexivity).
    destruct (try_block_returns h 0 initial Ht)
      as (response' & data' & chunks & d & Hf' & _ & Hjson' & Htry & Hex).
    rewrite Hf in Hf'. injection Hf' as <-.
    rewrite Hjson in Hjson'. injection Hjson' as <-.
    pose proof (Hempty {| draws := draws initial;
                          trace := trace initial ++ [EvFetch 0] |}) as He.
    rewrite Hex in He. cbn [fst] in He. subst chunks.
    rewrite !execute_unfold.
    rewrite retry_loop_step. unfold loop_body, bind. rewrite Htry.
    split; reflexivity.
Qed.

Lemma normaliser_one_chunk_per_result_witness :
  let data :=
    OpenAiFileSearchResponse.mk
      (val [ OutputItem.mk "message" results_absent;
             OutputItem.mk "file_search_call" results_malformed ]) in
  fst (execute (always (http_ok data))) = Returned []
  /\ fst (extract_chunks (always (http_ok sample_response)) sample_response initial)
     = [ Chunk.mk "x" "hello" (9 # 10)%Q;
         Chunk.mk "unknown_id_i" "" 0%Q;
         Chunk.mk "y" "" 1%Q ].
Proof.
  cbv zeta. split; [|reflexivity].
  set (data := OpenAiFileSearchResponse.mk
                 (val [ OutputItem.mk "message" results_absent;
                        OutputItem.mk "file_search_call" results_malformed ])).
  refine (proj1 (proj2 (proj2 (normaliser_one_chunk_per_result
                                 (always (http_ok data)) data) _)
                   (Response.mk 200 (Some "") (inr data))
                   eq_refl eq_refl eq_refl)).
  intros item [<- | [<- | []]]; [left; discriminate | right; reflexivity].
Defined.

Lemma waitTime_first (r : spec_float) :
  is_unit_draw r = true ->
  exists w : Z, waitTime 0 r = of_Z w /\ (400 <= w <= 600)%Z.
Proof.
  intros Hr.
  destruct (waitTime_exact 0 r ltac:(lia) Hr) as (j & Hj & _ & Hw & _).
  exists (Z.max 0 (500 * 2 ^ Z.of_nat 0 + j))%Z. split; [exact Hw|].
  simpl Z.of_nat. change (2 ^ 0)%Z with 1%Z. lia.
Qed.

(** C5. The wait computed after a failed attempt number [a] is the
    number [max(0, 500 * 2^a + jitter)] of milliseconds for an integer
    jitter between -100 and 100, the draw of [Math.random()] being a
    binary64 float of the unit interval and all the arithmetic being that
    of binary64: so for the formula, and so for the delay that an
    iteration ending in [continue] appends to the trace. The statement is
    for the attempts up to 40, which keeps every number involved among
    the integers that binary64 holds exactly; [execute] computes a wait
    after the attempts 0 and 1 only. In a run whose first call is
    answered with 429, the first sleep is that wait for [a = 0] and lasts
    between 400 and 600 ms; when the second call then succeeds it is the
    only sleep, two calls are made and the chunk list is returned. *)
Theorem backoff_wait :
  (forall (a : nat) (r : spec_float),
      a <= 40 ->
      is_unit_draw r = true ->
      exists j : Z,
        (-100 <= j <= 100)%Z
        /\ jitter r = of_Z j
        /\ waitTime a r = of_Z (Z.max 0 (500 * 2 ^ Z.of_nat a + j))%Z)
  /\ (forall (h : Host) (budget a : nat) (s : State),
        unit_interval h ->
        a <= 40 ->
        fst (loop_body h budget a s) = Continue ->
        exists (j : Z) (evs : list Event),
          (-100 <= j <= 100)%Z
          /\ sleeps_of evs = []
          /\ trace (snd (loop_body h budget a s))
             = trace s ++ evs
                 ++ [EvDelay (of_Z (Z.max 0 (500 * 2 ^ Z.of_nat a + j))%Z)])
  /\ (forall (h : Host) (r0 : Response.t),
        unit_interval h ->
        fetch h 0 = fetch_resolved r0 ->
        Response.status r0 = 429%N ->
        exists (w : Z) (rest : list spec_float),
          sleeps (snd (execute h)) = of_Z w :: rest
          /\ of_Z w = waitTime 0 (random h 0)
          /\ (400 <= w <= 600)%Z
          /\ (fault_of (fetch h 1) = None ->
              rest = []
              /\ calls (snd (execute h)) = 2
              /\ exists chunks, fst (execute h) = Returned chunks)).
Proof.
  split.
  { intros a r Ha Hr.
    destruct (waitTime_exact a r Ha Hr) as (j & Hj & Hjit & Hw & _).
    exists j. repeat split; try assumption; lia. }
  split.
  { intros h budget a s Hunit Ha.
    destruct (fault_of (fetch h a)) as [f|] eqn:Hf.
    - destruct (retries budget a (classified f)) eqn:Hr.
      + rewrite (loop_body_retries h budget a f s Hf Hr). intros _.
        destruct (waitTime_exact a (random h (draws s)) Ha (Hunit (draws s)))
          as (j & Hj & _ & Hw & _).
        exists j, ([EvFetch a] ++ console_lines f).
        split; [exact Hj|].
        rewrite sleeps_of_app, (proj2 (console_lines_quiet f)).
        split; [reflexivity|].
        cbn [snd trace]. rewrite Hw, <- !app_assoc. reflexivity.
      + rewrite (loop_body_throws h budget a f s Hf Hr). discriminate.
    - destruct (loop_body_returns h budget a s Hf) as (chunks & d & ->).
      discriminate. }
  intros h r0 Hunit Hf Hs.
  assert (Hok : Response.ok r0 = false)
    by (apply not_ok_of_status; rewrite Hs; right; reflexivity).
  pose proof (fault_of_not_ok h 0 r0 Hf Hok) as Ht.
  assert (Hc : McpError.code (classified (a_response r0)) = OPENAI_RATE_LIMIT)
    by (rewrite classified_response, Hs; reflexivity).
  assert (Hr : retries maxAttempts 0 (classified (a_response r0)) = true)
    by (unfold retries; rewrite Hc; reflexivity).
  destruct (console_lines_quiet (a_response r0)) as [Hq Hz].
  destruct (waitTime_first (random h 0) (Hunit 0)) as (w & Hw & Hband).
  exists w.
  rewrite !execute_unfold.
  rewrite retry_loop_step, (loop_body_retries h _ 0 _ _ Ht Hr).
  cbn [draws initial trace].
  destruct (fault_of (fetch h 1)) as [f1|] eqn:Ht1.
  - match goal with
    | |- context [retry_loop h maxAttempts 2 1 ?s1] =>
        destruct (retry_loop_run h maxAttempts 2 1 s1 eq_refl ltac:(lia))
          as (out & s' & evs & Heq & Htr & _)
    end.
    rewrite Heq. cbn [fst snd]. exists (sleeps_of evs).
    unfold sleeps. rewrite Htr. cbn [trace].
    rewrite !sleeps_of_app, Hz. simpl. rewrite Hw.
    split; [reflexivity|]. split; [reflexivity|].
    split; [exact Hband | discriminate].
  - rewrite retry_loop_step.
    match goal with
    | |- context [loop_body h maxAttempts 1 ?s1] =>
        destruct (loop_body_returns h maxAttempts 1 s1 Ht1) as (chunks & d & ->)
    end.
    cbn [fst snd]. exists []. unfold sleeps, calls. cbn [trace].
    rewrite !filter_app, !sleeps_of_app, Hq, Hz. simpl. rewrite Hw.
    split; [reflexivity|]. split; [reflexivity|].
    split; [exact Hband|].
    intros _. split; [reflexivity|]. split; [reflexivity|].
    exists chunks. reflexivity.
Qed.

Lemma backoff_wait_witness :
  let h := first_then (http 429 "slow down") (http_ok sample_response) in
  unit_interval h
  /\ sleeps (snd (execute h)) = [of_Z 500]
  /\ calls (snd (execute h)) = 2.
Proof.
  cbv zeta.
  assert (Hunit : unit_interval
                    (first_then (http 429 "slow down") (http_ok sample_response))).
  { intros n. reflexivity. }
  split; [exact Hunit|].
  destruct (proj2 (proj2 backoff_wait)
              (first_then (http 429 "slow down") (http_ok sample_response))
              (Response.mk 429 (Some "slow down")
                 (inl (JsError.mk "SyntaxError" "Unexpected token" None)))
              Hunit eq_refl eq_refl)
    as (w & rest & Hsl & Hw & _ & Hnext).
  destruct (Hnext eq_refl) as (Hrest & Hcalls & _).
  split; [|exact Hcalls].
  rewrite Hsl, Hrest, Hw. vm_compute. reflexivity.
Defined.

(** * Further properties of the pipeline *)

(** ** The success path in closed form *)

Lemma push_results_exact (h : Host) (rs : list SearchResultItem.t) :
  forall (chunks : list Chunk.t) (s : State),
    push_results h rs chunks s
    = (chunks ++ normal_chunks h (draws s) rs,
       {| draws := draws s + missing_ids rs; trace := trace s |}).
Proof.
  induction rs as [|r rest IH]; intros chunks s; simpl.
  - rewrite app_nil_r, Nat.add_0_r, state_eta. reflexivity.
  - unfold bind at 1.
    destruct (SearchResultItem.id r) as [| |i].
    1,2: unfold fallback_id; run_monad; rewrite IH; simpl;
         rewrite <- app_assoc, Nat.add_succ_r; reflexivity.
    unfold ret at 1. rewrite IH, <- app_assoc. reflexivity.
Qed.

Lemma normal_chunks_app (h : Host) (rs1 rs2 : list SearchResultItem.t) :
  forall d,
    normal_chunks h d (rs1 ++ rs2)
    = normal_chunks h d rs1 ++ normal_chunks h (d + missing_ids rs1) rs2.
Proof.
  induction rs1 as [|r rest IH]; intros d; simpl.
  - rewrite Nat.add_0_r. reflexivity.
  - destruct (SearchResultItem.id r); simpl; rewrite IH;
      rewrite ?Nat.add_succ_r; reflexivity.
Qed.

Lemma missing_ids_app (rs1 rs2 : list SearchResultItem.t) :
  missing_ids (rs1 ++ rs2) = missing_ids rs1 + missing_ids rs2.
Proof.
  induction rs1 as [|r rest IH]; simpl; [reflexivity|].
  destruct (SearchResultItem.id r); simpl; rewrite IH; reflexivity.
Qed.

Lemma push_output_exact (h : Host) (items : list OutputItem.t) :
  forall (chunks : list Chunk.t) (s : State),
    let rs :=
      flat_map
        (fun item =>
           if is_file_search_call item
           then elements (OutputItem.results item) else [])
        items in
    push_output h items chunks s
    = (chunks ++ normal_chunks h (draws s) rs,
       {| draws := draws s + missing_ids rs; trace := trace s |}).
Proof.
  induction items as [|item rest IH]; intros chunks s; cbv zeta; simpl.
  - rewrite app_nil_r, Nat.add_0_r, state_eta. reflexivity.
  - unfold bind at 1. fold (is_file_search_call item).
    destruct (is_file_search_call item).
    + rewrite push_results_exact, IH. cbv zeta. simpl.
      rewrite normal_chunks_app, missing_ids_app, <- app_assoc, Nat.add_assoc.
      reflexivity.
    + unfold ret at 1. rewrite IH. reflexivity.
Qed.

Lemma extract_chunks_exact (h : Host) (responseData : OpenAiFileSearchResponse.t)
    (s : State) :
  extract_chunks h responseData s
  = (normal_chunks h (draws s) (selected_results responseData),
     {| draws := draws s + missing_ids (selected_results responseData);
        trace := trace s |}).
Proof.
  unfold extract_chunks, selected_results. rewrite push_output_exact.
  reflexivity.
Qed.

Lemma loop_body_returns_exact (h : Host) (budget attempt : nat) (s : State) :
  fault_of (fetch h attempt) = None ->
  exists response responseData,
    fetch h attempt = fetch_resolved response
    /\ Response.ok response = true
    /\ Response.json response = inr responseData
    /\ loop_body h budget attempt s
       = (Return (normal_chunks h (draws s) (selected_results responseData)),
          {| draws := draws s + missing_ids (selected_results responseData);
             trace := trace s ++ [EvFetch attempt] |}).
Proof.
  intros Hf.
  destruct (try_block_returns h attempt s Hf)
    as (response & responseData & chunks & d & Hfetch & Hok & Hjson & Htry & Hex).
  exists response, responseData. repeat split; try assumption.
  rewrite extract_chunks_exact in Hex. cbn [draws trace] in Hex.
  injection Hex as <- <-.
  unfold loop_body, bind. rewrite Htry. reflexivity.
Qed.

(** ** The shape of a run *)

Lemma filter_fetch_console (error : Fault) :
  filter is_fetch (console_lines error) = [].
Proof. exact (proj1 (console_lines_quiet error)). Qed.

Lemma sleeps_of_console (error : Fault) :
  sleeps_of (console_lines error) = [].
Proof. exact (proj2 (console_lines_quiet error)). Qed.

Lemma filter_observable_console (error : Fault) :
  filter is_call_or_sleep (console_lines error) = [].
Proof.
  destruct error as [e | r | v]; simpl; try reflexivity.
  destruct (Response.text r); reflexivity.
Qed.

(** A run started inside its budget makes [S m] calls, numbered in a row
    from [attempt], for some [m] below what remains of the budget; the
    first [m] of them fail in a way that is retried and each is followed
    by its backoff wait; the last one decides the outcome. *)
Lemma retry_loop_shape (h : Host) (budget : nat) :
  forall (remaining attempt : nat) (s : State),
    attempt + remaining = budget ->
    0 < remaining ->
    exists (m : nat) (out : Outcome) (s' : State),
      retry_loop h budget remaining attempt s = (out, s')
      /\ m < remaining
      /\ filter is_call_or_sleep (trace s')
         = filter is_call_or_sleep (trace s) ++ schedule h attempt (draws s) m
      /\ filter is_fetch (trace s')
         = filter is_fetch (trace s) ++ map EvFetch (seq attempt (S m))
      /\ sleeps_of (trace s')
         = sleeps_of (trace s) ++ backoff_waits h attempt (draws s) m
      /\ (forall k, k < m ->
            exists f, fault_of (fetch h (attempt + k)) = Some f
                      /\ retries budget (attempt + k) (classified f) = true)
      /\ match fault_of (fetch h (attempt + m)) with
         | Some f =>
             out = Failed (classified f)
             /\ retries budget (attempt + m) (classified f) = false
             /\ draws s' = draws s + m
         | None =>
             exists response responseData,
               fetch h (attempt + m) = fetch_resolved response
               /\ Response.ok response = true
               /\ Response.json response = inr responseData
               /\ out = Returned (normal_chunks h (draws s + m)
                                    (selected_results responseData))
               /\ draws s'
                  = draws s + m + missing_ids (selected_results responseData)
         end.
Proof.
  induction remaining as [|k IH]; intros a s Hsum Hpos; [lia|].
  rewrite retry_loop_step.
  destruct (fault_of (fetch h a)) as [f|] eqn:Hf.
  - destruct (retries budget a (classified f)) eqn:Hr.
    + rewrite (loop_body_retries h budget a f s Hf Hr).
      destruct (retries_bound _ _ _ Hr) as [_ Hlt].
      match goal with
      | |- context [retry_loop h budget k (S a) ?s1] =>
          destruct (IH (S a) s1 ltac:(lia) ltac:(lia))
            as (m & out & s' & Heq & Hm & Hsch & Hfe & Hsl & Hpre & Hlast)
      end.
      cbn [draws trace] in *.
      exists (S m), out, s'.
      split; [exact Heq|]. split; [lia|].
      split.
      { rewrite Hsch, !filter_app, filter_observable_console. simpl.
        rewrite <- !app_assoc. reflexivity. }
      split.
      { rewrite Hfe, !filter_app, filter_fetch_console. simpl.
        rewrite <- !app_assoc. reflexivity. }
      split.
      { rewrite Hsl, !sleeps_of_app, sleeps_of_console. simpl.
        rewrite <- !app_assoc. reflexivity. }
      split.
      { intros [|j] Hj.
        - rewrite Nat.add_0_r. exists f. split; assumption.
        - rewrite Nat.add_succ_r. apply (Hpre j). lia. }
      rewrite Nat.add_succ_r. cbn [Nat.add] in Hlast.
      destruct (fault_of (fetch h (S (a + m)))) as [f'|].
      * destruct Hlast as (Hout & Hno & Hd). repeat split; try assumption. lia.
      * destruct Hlast as (response & data & H1 & H2 & H3 & Hout & Hd).
        exists response, data. repeat split; try assumption.
        -- rewrite Hout. f_equal. f_equal. lia.
        -- lia.
    + rewrite (loop_body_throws h budget a f s Hf Hr).
      exists 0, (Failed (classified f)). eexists.
      split; [reflexivity|]. split; [lia|]. cbn [draws trace].
      rewrite !filter_app, !sleeps_of_app, filter_fetch_console,
        filter_observable_console,
        sleeps_of_console, Nat.add_0_r, Hf. simpl. rewrite !app_nil_r.
      split; [reflexivity|]. split; [reflexivity|]. split; [reflexivity|].
      split; [intros; lia|]. split; [reflexivity|]. split; [exact Hr | lia].
  - destruct (loop_body_returns_exact h budget a s Hf)
      as (response & data & H1 & H2 & H3 & ->).
    exists 0. eexists. eexists.
    split; [reflexivity|]. split; [lia|]. cbn [draws trace].
    rewrite !filter_app, !sleeps_of_app, Nat.add_0_r, Hf. simpl.
    rewrite !app_nil_r.
    split; [reflexivity|]. split; [reflexivity|]. split; [reflexivity|].
    split; [intros; lia|].
    exists response, data. repeat split; try assumption;
      rewrite ?Nat.add_0_r; reflexivity.
Qed.

Lemma execute_with_shape (h : Host) (budget : nat) :
  0 < budget ->
  exists m : nat,
    m < budget
    /\ filter is_call_or_sleep (trace (snd (execute_with budget h)))
       = schedule h 0 0 m
    /\ filter is_fetch (trace (snd (execute_with budget h)))
       = map EvFetch (seq 0 (S m))
    /\ sleeps (snd (execute_with budget h)) = backoff_waits h 0 0 m
    /\ (forall k, k < m ->
          exists f, fault_of (fetch h k) = Some f
                    /\ retries budget k (classified f) = true)
    /\ match fault_of (fetch h m) with
       | Some f =>
           fst (execute_with budget h) = Failed (classified f)
           /\ retries budget m (classified f) = false
           /\ draws (snd (execute_with budget h)) = m
       | None =>
           exists response responseData,
             fetch h m = fetch_resolved response
             /\ Response.ok response = true
             /\ Response.json response = inr responseData
             /\ fst (execute_with budget h)
                = Returned (normal_chunks h m (selected_results responseData))
             /\ draws (snd (execute_with budget h))
                = m + missing_ids (selected_results responseData)
       end.
Proof.
  intros Hpos. unfold execute_with, sleeps.
  destruct (retry_loop_shape h budget budget 0 initial eq_refl Hpos)
    as (m & out & s' & -> & Hm & Hsch & Hfe & Hsl & Hpre & Hlast).
  exists m. cbn [fst snd]. simpl in Hsch, Hfe, Hsl, Hpre, Hlast.
  repeat split; assumption.
Qed.

Lemma backoff_waits_length (h : Host) (m : nat) :
  forall attempt d, List.length (backoff_waits h attempt d m) = m.
Proof.
  induction m as [|m IH]; intros attempt d; simpl; [reflexivity|].
  rewrite IH. reflexivity.
Qed.

Lemma calls_of_fetches (s : State) (n : nat) :
  filter is_fetch (trace s) = map EvFetch (seq 0 n) -> calls s = n.
Proof.
  intros H. unfold calls. rewrite H, length_map, length_seq. reflexivity.
Qed.

Lemma not_retryable_is_internal (c : ErrorCode) :
  isRetryable c = false -> c = INTERNAL_SERVER_ERROR.
Proof. destruct c; simpl; intros H; try discriminate; reflexivity. Qed.

Lemma waitTime_bounds (a : nat) (r : spec_float) :
  a <= 40 -> is_unit_draw r = true ->
  exists w : Z,
    waitTime a r = of_Z w
    /\ (500 * 2 ^ Z.of_nat a - 100 <= w <= 500 * 2 ^ Z.of_nat a + 100)%Z
    /\ waitTime a r = SFadd 53 1024 (delayMs a) (jitter r).
Proof.
  intros Ha Hr.
  destruct (waitTime_exact a r Ha Hr) as (j & Hj & _ & Hw & Hsum).
  assert (Hp : (1 <= 2 ^ Z.of_nat a)%Z)
    by (apply Z.pow_le_mono_r with (a := 2%Z) (b := 0%Z); lia).
  exists (Z.max 0 (500 * 2 ^ Z.of_nat a + j))%Z.
  split; [exact Hw|]. split; [lia | exact Hsum].
Qed.

(** X1. Whatever the positive budget, the calls and sleeps of a run
    alternate: call 0, its backoff wait, call 1, ..., and a last call
    after which the run does not sleep; with [m] retries that is [m + 1]
    calls numbered in a row from 0 and [m] sleeps, [m] below the
    budget. *)
Theorem run_schedule (h : Host) (budget : nat) :
  0 < budget ->
  exists m : nat,
    m < budget
    /\ filter is_call_or_sleep (trace (snd (execute_with budget h)))
       = schedule h 0 0 m
    /\ calls (snd (execute_with budget h)) = S m
    /\ List.length (sleeps (snd (execute_with budget h))) = m.
Proof.
  intros Hpos.
  destruct (execute_with_shape h budget Hpos)
    as (m & Hm & Hsch & Hfe & Hsl & _).
  exists m. repeat split; try assumption.
  - apply calls_of_fetches. exact Hfe.
  - rewrite Hsl. apply backoff_waits_length.
Qed.

Lemma run_schedule_witness :
  0 < maxAttempts
  /\ exists m : nat,
       m < maxAttempts
       /\ filter is_call_or_sleep
            (trace (snd (execute_with maxAttempts (always (http 503 "busy")))))
          = schedule (always (http 503 "busy")) 0 0 m
       /\ calls (snd (execute_with maxAttempts (always (http 503 "busy")))) = S m
       /\ List.length
            (sleeps (snd (execute_with maxAttempts (always (http 503 "busy")))))
          = m.
Proof.
  assert (Hpos : 0 < maxAttempts) by (unfold maxAttempts; lia).
  split; [exact Hpos|].
  exact (run_schedule (always (http 503 "busy")) maxAttempts Hpos).
Defined.

(** X2. The caller gets what the last call gave: every earlier call
    failed with a retryable code and its error is dropped; a failed last
    call is reported with its own classification; a successful one
    returns the chunks of its own response, the generated ids taking the
    draws that follow the one draw of each earlier retry. *)
Theorem outcome_of_last_call (h : Host) (budget : nat) :
  0 < budget ->
  let n := calls (snd (execute_with budget h)) in
  (forall k, S k < n ->
     exists f, fault_of (fetch h k) = Some f
               /\ In (McpError.code (classified f)) retryable_codes)
  /\ match fault_of (fetch h (n - 1)) with
     | Some f => fst (execute_with budget h) = Failed (classified f)
     | None =>
         exists response responseData,
           fetch h (n - 1) = fetch_resolved response
           /\ Response.json response = inr responseData
           /\ fst (execute_with budget h)
              = Returned (normal_chunks h (n - 1) (selected_results responseData))
     end.
Proof.
  intros Hpos.
  destruct (execute_with_shape h budget Hpos)
    as (m & Hm & _ & Hfe & _ & Hpre & Hlast).
  rewrite (calls_of_fetches _ _ Hfe). cbv zeta.
  replace (S m - 1) with m by lia. split.
  - intros k Hk. destruct (Hpre k ltac:(lia)) as (f & Hf & Hr).
    exists f. split; [exact Hf|]. apply retries_iff in Hr. tauto.
  - destruct (fault_of (fetch h m)) as [f|].
    + tauto.
    + destruct Hlast as (response & data & H1 & _ & H3 & Hout & _).
      exists response, data. repeat split; assumption.
Qed.

Lemma outcome_of_last_call_witness :
  let h := first_then (http 429 "slow down") (http_ok sample_response) in
  0 < maxAttempts
  /\ fst (execute_with maxAttempts h)
     = Returned (normal_chunks h 1 (selected_results sample_response)).
Proof.
  cbv zeta.
  assert (Hpos : 0 < maxAttempts) by (unfold maxAttempts; lia).
  split; [exact Hpos|].
  pose proof (outcome_of_last_call
                (first_then (http 429 "slow down") (http_ok sample_response))
                maxAttempts Hpos) as [_ Hlast].
  vm_compute in Hlast.
  destruct Hlast as (response & data & Hr & Hd & Hout).
  injection Hr as <-. injection Hd as <-. exact Hout.
Defined.

(** X3. A run that fails before its budget is used up fails with
    INTERNAL_SERVER_ERROR: an error with a retryable code reaches the
    caller only from the last call the budget allows. *)
Theorem early_failure_is_internal (h : Host) (budget : nat) (e : McpError.t) :
  0 < budget ->
  fst (execute_with budget h) = Failed e ->
  calls (snd (execute_with budget h)) < budget ->
  McpError.code e = INTERNAL_SERVER_ERROR.
Proof.
  intros Hpos Hout Hcalls.
  destruct (execute_with_shape h budget Hpos)
    as (m & Hm & _ & Hfe & _ & _ & Hlast).
  rewrite (calls_of_fetches _ _ Hfe) in Hcalls.
  destruct (fault_of (fetch h m)) as [f|].
  - destruct Hlast as (Hf & Hno & _). rewrite Hf in Hout.
    injection Hout as <-. apply not_retryable_is_internal.
    unfold retries in Hno. apply andb_false_iff in Hno.
    destruct Hno as [Hno | Hno]; [exact Hno|].
    apply Nat.ltb_ge in Hno. lia.
  - destruct Hlast as (response & data & _ & _ & _ & Hret & _).
    rewrite Hret in Hout. discriminate.
Qed.

Lemma early_failure_is_internal_witness :
  let h := always (http 401 "unauthorized") in
  calls (snd (execute_with maxAttempts h)) < maxAttempts
  /\ forall e, fst (execute_with maxAttempts h) = Failed e ->
               McpError.code e = INTERNAL_SERVER_ERROR.
Proof.
  cbv zeta.
  assert (Hcalls : calls (snd (execute_with maxAttempts
                                 (always (http 401 "unauthorized"))))
                   < maxAttempts) by (vm_compute; lia).
  split; [exact Hcalls|].
  intros e He.
  apply (early_failure_is_internal (always (http 401 "unauthorized"))
           maxAttempts e); [unfold maxAttempts; lia | exact He | exact Hcalls].
Defined.

(** X4. When every call the budget allows fails with a retryable code,
    whichever of the four it is each time, the run uses the whole
    budget: as many calls as the budget, one sleep fewer, and the
    classified error of the last call for the caller. *)
Theorem retryable_failures_use_the_budget (h : Host) (budget : nat) :
  0 < budget ->
  (forall k, k < budget ->
     exists f, fault_of (fetch h k) = Some f
               /\ In (McpError.code (classified f)) retryable_codes) ->
  calls (snd (execute_with budget h)) = budget
  /\ List.length (sleeps (snd (execute_with budget h))) = budget - 1
  /\ exists f, fault_of (fetch h (budget - 1)) = Some f
               /\ fst (execute_with budget h) = Failed (classified f).
Proof.
  intros Hpos Hall.
  destruct (execute_with_shape h budget Hpos)
    as (m & Hm & _ & Hfe & Hsl & _ & Hlast).
  destruct (Hall m Hm) as (f & Hf & Hcode).
  rewrite Hf in Hlast. destruct Hlast as (Hout & Hno & _).
  assert (Hlastcall : m = budget - 1).
  { destruct (Nat.eq_dec m (budget - 1)) as [E|N]; [exact E|].
    assert (Hyes : retries budget m (classified f) = true)
      by (apply retries_iff; split; [exact Hcode | lia]).
    congruence. }
  subst m. rewrite (calls_of_fetches _ _ Hfe), Hsl, backoff_waits_length.
  split; [lia|]. split; [reflexivity|].
  exists f. split; assumption.
Qed.

Lemma retryable_failures_use_the_budget_witness :
  let h := always (fetch_rejected (JsError.mk "AbortError" "aborted" None)) in
  calls (snd (execute_with maxAttempts h)) = maxAttempts
  /\ List.length (sleeps (snd (execute_with maxAttempts h))) = maxAttempts - 1.
Proof.
  cbv zeta.
  assert (Hpos : 0 < maxAttempts) by (unfold maxAttempts; lia).
  destruct (retryable_failures_use_the_budget
              (always (fetch_rejected (JsError.mk "AbortError" "aborted" None)))
              maxAttempts Hpos) as (Hc & Hs & _).
  - intros k _. eexists. split; [reflexivity|].
    vm_compute. right. right. right. left. reflexivity.
  - split; assumption.
Defined.

Lemma backoff_waits_integers (h : Host) (m : nat) :
  unit_interval h ->
  forall attempt d,
    attempt + m <= 41 ->
    exists ws : list Z,
      backoff_waits h attempt d m = map of_Z ws
      /\ List.length ws = m
      /\ forall i w,
           nth_error ws i = Some w ->
           (500 * 2 ^ Z.of_nat (attempt + i) - 100
            <= w <= 500 * 2 ^ Z.of_nat (attempt + i) + 100)%Z.
Proof.
  intros Hunit. induction m as [|m IH]; intros attempt d Hle; simpl.
  - exists []. split; [reflexivity|]. split; [reflexivity|].
    intros [|i] w Hi; discriminate Hi.
  - destruct (waitTime_bounds attempt (random h d) ltac:(lia) (Hunit d))
      as (w0 & Hw0 & Hb0 & _).
    destruct (IH (S attempt) (S d) ltac:(lia)) as (ws & Hws & Hlen & Hb).
    exists (w0 :: ws). rewrite Hw0, Hws.
    split; [reflexivity|]. split; [simpl; rewrite Hlen; reflexivity|].
    intros [|i] w Hi; simpl in Hi.
    + injection Hi as <-. rewrite Nat.add_0_r. exact Hb0.
    + rewrite Nat.add_succ_r. exact (Hb i w Hi).
Qed.

(** X5. With [Math.random()] answering binary64 floats of the unit
    interval, a run of [execute] sleeps at most twice, every sleep is a
    whole number of milliseconds, its sleep number [i] lasts between
    [500 * 2^i - 100] and [500 * 2^i + 100] ms, and all its sleeps add
    up to at most 1700 ms. *)
Theorem backoff_budget (h : Host) :
  unit_interval h ->
  exists ws : list Z,
    sleeps (snd (execute h)) = map of_Z ws
    /\ List.length ws <= 2
    /\ (forall i w, nth_error ws i = Some w ->
          (500 * 2 ^ Z.of_nat i - 100 <= w <= 500 * 2 ^ Z.of_nat i + 100)%Z)
    /\ (0 <= total ws <= 1700)%Z.
Proof.
  intros Hunit. unfold execute.
  destruct (execute_with_shape h maxAttempts ltac:(unfold maxAttempts; lia))
    as (m & Hm & _ & _ & Hsl & _).
  unfold maxAttempts in Hm.
  destruct (backoff_waits_integers h m Hunit 0 0 ltac:(lia))
    as (ws & Hws & Hlen & Hb).
  exists ws. rewrite Hsl, Hws.
  split; [reflexivity|]. split; [lia|]. split; [exact Hb|].
  destruct ws as [|w0 [|w1 [|w2 ws]]]; simpl in Hlen; try lia; unfold total; simpl.
  - lia.
  - pose proof (Hb 0 w0 eq_refl) as H0. simpl in H0.
    change (2 ^ 0)%Z with 1%Z in H0. lia.
  - pose proof (Hb 0 w0 eq_refl) as H0. pose proof (Hb 1 w1 eq_refl) as H1.
    simpl in H0, H1.
    change (2 ^ 0)%Z with 1%Z in H0. change (2 ^ 1)%Z with 2%Z in H1. lia.
Qed.

Lemma backoff_budget_witness :
  let h := always (http 500 "oops") in
  unit_interval h
  /\ exists ws : list Z,
       sleeps (snd (execute h)) = map of_Z ws
       /\ (0 <= total ws <= 1700)%Z.
Proof.
  cbv zeta.
  assert (Hunit : unit_interval (always (http 500 "oops")))
    by (intros n; reflexivity).
  split; [exact Hunit|].
  destruct (backoff_budget (always (http 500 "oops")) Hunit)
    as (ws & Hws & _ & _ & Htotal).
  exists ws. split; assumption.
Defined.

(** X6. For a draw of the unit interval and the attempts up to 39, the
    guard [Math.max(0, ...)] never changes the wait: it is the binary64
    sum of the doubled base delay and the jitter; it is a whole number of
    milliseconds, never under 400, and the wait of the next attempt is
    longer whatever the two draws are. *)
Theorem wait_is_never_clamped (a : nat) (r r' : spec_float) :
  a <= 39 ->
  is_unit_draw r = true ->
  is_unit_draw r' = true ->
  waitTime a r = SFadd 53 1024 (delayMs a) (jitter r)
  /\ exists w w' : Z,
       waitTime a r = of_Z w
       /\ waitTime (S a) r' = of_Z w'
       /\ (400 <= w)%Z
       /\ (w < w')%Z.
Proof.
  intros Ha Hr Hr'.
  destruct (waitTime_bounds a r ltac:(lia) Hr) as (w & Hw & Hb & Hsum).
  destruct (waitTime_bounds (S a) r' ltac:(lia) Hr') as (w' & Hw' & Hb' & _).
  assert (Hp : (1 <= 2 ^ Z.of_nat a)%Z)
    by (apply Z.pow_le_mono_r with (a := 2%Z) (b := 0%Z); lia).
  rewrite Nat2Z.inj_succ, Z.pow_succ_r in Hb' by lia.
  split; [exact Hsum|].
  exists w, w'. repeat split; try assumption; lia.
Qed.

Lemma wait_is_never_clamped_witness :
  waitTime 0 (S754_zero false)
  = SFadd 53 1024 (delayMs 0) (jitter (S754_zero false))
  /\ waitTime 0 (S754_zero false) = of_Z 400.
Proof.
  split; [|vm_compute; reflexivity].
  exact (proj1 (wait_is_never_clamped 0 (S754_zero false)
                  (S754_finite false 9007199254740991 (-53))
                  ltac:(lia) eq_refl eq_refl)).
Defined.

(** X7. When the first call succeeds the run is that call and nothing
    else: one HTTP call, no sleep, no console line, the chunks of the
    response returned in its order, and one draw used per missing id. *)
Theorem first_call_success (h : Host) (budget : nat) :
  0 < budget ->
  fault_of (fetch h 0) = None ->
  exists response responseData,
    fetch h 0 = fetch_resolved response
    /\ Response.json response = inr responseData
    /\ execute_with budget h
       = (Returned (normal_chunks h 0 (selected_results responseData)),
          {| draws := missing_ids (selected_results responseData);
             trace := [EvFetch 0] |}).
Proof.
  intros Hpos Hf. unfold execute_with.
  destruct budget as [|k]; [lia|]. rewrite retry_loop_step.
  destruct (loop_body_returns_exact h (S k) 0 initial Hf)
    as (response & data & H1 & _ & H3 & ->).
  exists response, data. repeat split; assumption.
Qed.

Lemma first_call_success_witness :
  execute (always (http_ok sample_response))
  = (Returned [ Chunk.mk "x" "hello" (9 # 10)%Q;
                Chunk.mk "unknown_id_i" "" 0%Q;
                Chunk.mk "y" "" 1%Q ],
     {| draws := 1; trace := [EvFetch 0] |}).
Proof.
  destruct (first_call_success (always (http_ok sample_response)) maxAttempts)
    as (response & data & Hr & Hd & Hrun);
    [unfold maxAttempts; lia | reflexivity |].
  injection Hr as <-. injection Hd as <-. exact Hrun.
Defined.

(** ** The normaliser *)

Lemma chunk_eta (c : Chunk.t) :
  Chunk.mk (Chunk.id c) (Chunk.text c) (Chunk.score c) = c.
Proof. destruct c; reflexivity. Qed.

Lemma normal_chunks_of_chunks (h : Host) (chunks : list Chunk.t) (d : nat) :
  normal_chunks h d (map result_of_chunk chunks) = chunks
  /\ missing_ids (map result_of_chunk chunks) = 0.
Proof.
  induction chunks as [|c rest [IH1 IH2]]; simpl; [split; reflexivity|].
  rewrite IH1, IH2, chunk_eta. split; reflexivity.
Qed.

Lemma string_length_app (s1 s2 : string) :
  String.length (s1 ++ s2) = String.length s1 + String.length s2.
Proof.
  induction s1 as [|c s1 IH]; simpl; [reflexivity|]. rewrite IH. reflexivity.
Qed.

Lemma substring_length_le (s : string) :
  forall n m, String.length (substring n m s) <= m.
Proof.
  induction s as [|c s IH]; intros n m.
  - destruct n, m; simpl; lia.
  - destruct n as [|n]; simpl.
    + destruct m as [|m]; simpl; [lia|]. specialize (IH 0 m). lia.
    + apply IH.
Qed.

(** X8. The two nested [forEach] loops that push onto [chunks] compute
    the flat reading of the response: the result items of the
    file-search calls that hold an array, in order, each turned into its
    chunk; the run draws one random number per missing id and none
    otherwise, and nothing is written to the trace. *)
Theorem normaliser_closed_form
    (h : Host) (responseData : OpenAiFileSearchResponse.t) (s : State) :
  extract_chunks h responseData s
  = (normal_chunks h (draws s) (selected_results responseData),
     {| draws := draws s + missing_ids (selected_results responseData);
        trace := trace s |})
  /\ (missing_ids (selected_results responseData) = 0 ->
      snd (extract_chunks h responseData s) = s).
Proof.
  split; [apply extract_chunks_exact|].
  intros H0. rewrite extract_chunks_exact, H0, Nat.add_0_r. apply state_eta.
Qed.

Lemma normaliser_closed_form_witness :
  snd (extract_chunks (always (http_ok sample_response))
         (response_of_chunks [Chunk.mk "x" "hello" (9 # 10)%Q]) initial)
  = initial.
Proof.
  apply (proj2 (normaliser_closed_form (always (http_ok sample_response))
                  (response_of_chunks [Chunk.mk "x" "hello" (9 # 10)%Q])
                  initial)).
  reflexivity.
Defined.

(** X9. Round trip: a response whose single file-search call lists
    result items with id, text and score all present is normalised to
    exactly those triples, in the same order, and the state is left
    untouched: no field is lost, reordered or defaulted, no random number
    is drawn. *)
Theorem normaliser_round_trip (h : Host) (chunks : list Chunk.t) (s : State) :
  extract_chunks h (response_of_chunks chunks) s = (chunks, s).
Proof.
  rewrite extract_chunks_exact.
  unfold selected_results, response_of_chunks. simpl. rewrite app_nil_r.
  destruct (normal_chunks_of_chunks h chunks (draws s)) as [-> ->].
  rewrite Nat.add_0_r, state_eta. reflexivity.
Qed.

(** X10. A generated identifier is "unknown_id_" followed by at most 13
    characters of the draw's base-36 rendering: it has between 11 and 24
    characters, so it is never empty, and when the rendering is no longer
    than "0." (a draw of 0) it is the bare prefix. *)
Theorem generated_id_bounds (h : Host) (d : nat) :
  String.prefix "unknown_id_" (generated_id h d) = true
  /\ 11 <= String.length (generated_id h d) <= 24
  /\ (String.length (toString36 h (random h d)) <= 2 ->
      generated_id h d = "unknown_id_").
Proof.
  unfold generated_id.
  pose proof (substring_length_le (toString36 h (random h d)) 2 13) as Hle.
  split; [|split].
  - simpl. destruct (substring 2 13 (toString36 h (random h d))); reflexivity.
  - rewrite string_length_app. simpl. lia.
  - intros Hshort.
    destruct (toString36 h (random h d)) as [|c1 [|c2 [|c3 rest]]];
      simpl in *; try reflexivity. lia.
Qed.

Lemma generated_id_bounds_witness :
  generated_id
    {| fetch := fun _ => http 500 ""; random := fun _ => S754_zero false;
       toString36 := fun _ => "0" |} 0
  = "unknown_id_".
Proof.
  apply (proj2 (proj2 (generated_id_bounds
                         {| fetch := fun _ => http 500 ""; random := fun _ => S754_zero false;
                            toString36 := fun _ => "0" |} 0))).
  simpl. lia.
Defined.

(** ** The classifier read backwards *)

Lemma classified_cases (error : Fault) :
  match error with
  | an_error e =>
      if JsError.name e =? "AbortError" then
        classified error
        = McpError.mk OPENAI_TIMEOUT
            "OpenAI API request timed out after 30 seconds." no_details
      else
        classified error
        = McpError.mk
            (if includes "fetch failed" (JsError.message e)
                || (JsError.name e =? "TypeError")
             then OPENAI_NETWORK_ERROR else INTERNAL_SERVER_ERROR)
            (JsError.message e) no_details
  | a_response r =>
      McpError.details (classified error)
      = status_details (Response.status r) (errorText_of r)
      /\ McpError.message (classified error) <> ""
      /\ McpError.code (classified error)
         = (if (Response.status r =? 429)%N then OPENAI_RATE_LIMIT
            else if (500 <=? Response.status r)%N then OPENAI_UPSTREAM_ERROR
                 else INTERNAL_SERVER_ERROR)
  | another_value v =>
      classified error
      = McpError.mk INTERNAL_SERVER_ERROR "An unknown error occurred."
          (string_details v)
  end.
Proof.
  destruct error as [e | r | v].
  - destruct (String.eqb_spec (JsError.name e) "AbortError") as [E|N].
    + apply classified_abort. exact E.
    + apply classified_generic. exact N.
  - rewrite classified_response. cbv zeta.
    destruct (Response.status r =? 429)%N;
      [|destruct (500 <=? Response.status r)%N];
      repeat split; discriminate.
  - reflexivity.
Qed.

(** X11. Which faults get which retryable code: OPENAI_TIMEOUT only an
    Error named "AbortError"; OPENAI_NETWORK_ERROR only another Error
    whose message contains "fetch failed" or whose name is "TypeError";
    OPENAI_RATE_LIMIT only a Response with status 429;
    OPENAI_UPSTREAM_ERROR only a Response with status 500 or more. Every
    other fault is an INTERNAL_SERVER_ERROR. *)
Theorem code_preimages (error : Fault) (s : State) :
  let c := McpError.code (fst (toMcpError error s)) in
  (c = OPENAI_TIMEOUT
   <-> exists e, error = an_error e /\ JsError.name e = "AbortError")
  /\ (c = OPENAI_NETWORK_ERROR
      <-> exists e, error = an_error e
                    /\ JsError.name e <> "AbortError"
                    /\ (includes "fetch failed" (JsError.message e) = true
                        \/ JsError.name e = "TypeError"))
  /\ (c = OPENAI_RATE_LIMIT
      <-> exists r, error = a_response r /\ Response.status r = 429%N)
  /\ (c = OPENAI_UPSTREAM_ERROR
      <-> exists r, error = a_response r /\ (500 <= Response.status r)%N).
Proof.
  cbv zeta. rewrite toMcpError_fst.
  pose proof (classified_cases error) as Hc.
  destruct error as [e | r | v].
  - destruct (String.eqb_spec (JsError.name e) "AbortError") as [E|N];
      rewrite Hc; cbn [McpError.code].
    + repeat split; try discriminate; eauto.
      * intros (e' & [= <-] & Hn & _). contradiction.
      * intros (r & Hr & _). discriminate Hr.
      * intros (r & Hr & _). discriminate Hr.
    + destruct (includes "fetch failed" (JsError.message e)) eqn:Hi;
        destruct (String.eqb_spec (JsError.name e) "TypeError") as [Et|Nt];
        cbn [orb];
        (repeat split; try discriminate; eauto);
        try (intros (e' & [= <-] & Hn); congruence);
        try (intros (r & Hr & _); discriminate Hr);
        try (intros (e' & [= <-] & _ & [Hx|Hx]); congruence).
  - destruct Hc as (_ & _ & ->).
    destruct (N.eqb_spec (Response.status r) 429) as [E|N].
    + repeat split; try discriminate; eauto;
        try (intros (e' & He & _); discriminate He).
      intros (r' & [= <-] & Hge). lia.
    + destruct (N.leb_spec 500 (Response.status r)) as [Hge|Hlt];
        (repeat split; try discriminate; eauto);
        try (intros (e' & He & _); discriminate He);
        try (intros (r' & [= <-] & Hx); (congruence || lia)).
  - rewrite Hc. cbn [McpError.code].
    repeat split; try discriminate;
      try (intros (e' & He & _); discriminate He).
Qed.

(** X12. The [details] of an McpError tell the kind of fault it came
    from: they are absent exactly for an Error, they are
    [{status, errorText}] with the response's own status for a Response
    (whose message is then never empty), and they are the string
    rendering of the value for anything else. The message of an Error
    fault is the fixed timeout text or the Error's own message, nothing
    else. *)
Theorem details_by_fault_kind (error : Fault) (s : State) :
  let m := fst (toMcpError error s) in
  (McpError.details m = no_details <-> exists e, error = an_error e)
  /\ (forall r, error = a_response r ->
        McpError.details m = status_details (Response.status r) (errorText_of r)
        /\ McpError.message m <> "")
  /\ (forall v, error = another_value v ->
        McpError.details m = string_details v)
  /\ (forall e, error = an_error e ->
        McpError.message m = "OpenAI API request timed out after 30 seconds."
        \/ McpError.message m = JsError.message e).
Proof.
  cbv zeta. rewrite toMcpError_fst.
  pose proof (classified_cases error) as Hc.
  destruct error as [e | r | v].
  - assert (Hd : McpError.details (classified (an_error e)) = no_details
                 /\ (McpError.message (classified (an_error e))
                     = "OpenAI API request timed out after 30 seconds."
                     \/ McpError.message (classified (an_error e))
                        = JsError.message e)).
    { destruct (JsError.name e =? "AbortError"); rewrite Hc;
        (split; [reflexivity|]); [left | right]; reflexivity. }
    destruct Hd as [Hd Hm]. rewrite Hd.
    split; [split; [eauto | reflexivity]|].
    split; [intros r Hr; discriminate Hr|].
    split; [intros v Hv; discriminate Hv|].
    intros e' [= <-]. exact Hm.
  - destruct Hc as (Hd & Hm & _). rewrite Hd.
    split; [split; [discriminate | intros (e & He); discriminate He]|].
    split; [intros r' [= <-]; split; [reflexivity | exact Hm]|].
    split; [intros v Hv; discriminate Hv | intros e He; discriminate He].
  - rewrite Hc. cbn [McpError.details].
    split; [split; [discriminate | intros (e & He); discriminate He]|].
    split; [intros r Hr; discriminate Hr|].
    split; [intros v' [= <-]; reflexivity | intros e He; discriminate He].
Qed.

Lemma details_by_fault_kind_witness :
  McpError.details
    (fst (toMcpError
            (a_response (Response.mk 404 None
                           (inr (OpenAiFileSearchResponse.mk undefined))))
            initial))
  = status_details 404 "Could not read error response body.".
Proof.
  exact (proj1 (proj1 (proj2 (details_by_fault_kind
                                (a_response
                                   (Response.mk 404 None
                                      (inr (OpenAiFileSearchResponse.mk undefined))))
                                initial))
                  _ eq_refl)).
Defined.

(** ** Configuration loading and start-up *)

Lemma prefix_app (p x : string) : String.prefix p (p ++ x) = true.
Proof.
  induction p as [|c p IH]; simpl.
  - destruct x; reflexivity.
  - destruct (ascii_dec c c) as [_|N]; [exact IH | contradiction].
Qed.

Lemma length_zero_empty (s : string) :
  (1 <=? String.length s)%nat = false <-> s = "".
Proof.
  destruct s; simpl; split; intros H; try reflexivity; discriminate.
Qed.

Lemma file_schema_accepts (ch : ConfigHost) (data : Json) (id : string) :
  FileConfigSchema_safeParse ch data = inr id
  <-> exists fields,
        data = JObject fields
        /\ property "vectorStoreId" fields = Some (JString id)
        /\ String.prefix "vs_" id = true.
Proof.
  unfold FileConfigSchema_safeParse. split.
  - destruct data as [| b | q | s | items | fields]; try discriminate.
    destruct (property "vectorStoreId" fields) as [[| b | q | s | items | fs]|] eqn:Hp;
      try discriminate.
    destruct (String.prefix "vs_" s) eqn:Hpre; [|discriminate].
    intros [= <-]. exists fields. repeat split; assumption.
  - intros (fields & -> & -> & ->). reflexivity.
Qed.

Lemma env_schema_accepts (ch : ConfigHost) (key : string) (dbg : option string) :
  EnvSchema_safeParse ch = inr (key, dbg)
  <-> env_OPENAI_API_KEY ch = Some key /\ key <> ""
      /\ dbg = env_DEBUG_OPENAI ch.
Proof.
  unfold EnvSchema_safeParse. split.
  - destruct (env_OPENAI_API_KEY ch) as [k|]; [|discriminate].
    destruct (1 <=? String.length k)%nat eqn:Hlen; [|discriminate].
    intros [= <- <-]. repeat split.
    intros ->. discriminate Hlen.
  - intros (-> & Hne & ->).
    destruct (1 <=? String.length key)%nat eqn:Hlen; [reflexivity|].
    apply length_zero_empty in Hlen. contradiction.
Qed.

Lemma loadConfig_loaded (ch : ConfigHost) (c : AppConfig.t) :
  fst (loadConfig ch) = loaded c
  <-> exists data,
        read_and_parse ch = inr data
        /\ FileConfigSchema_safeParse ch data = inr (AppConfig.vectorStoreId c)
        /\ EnvSchema_safeParse ch
           = inr (AppConfig.openaiApiKey c, env_DEBUG_OPENAI ch)
        /\ AppConfig.debugOpenai c = debug_flag (env_DEBUG_OPENAI ch).
Proof.
  unfold loadConfig, try_load_file. split.
  - destruct (read_and_parse ch) as [thrown | data]; [discriminate|].
    destruct (FileConfigSchema_safeParse ch data) as [issues | id] eqn:Hfile;
      [discriminate|].
    destruct (EnvSchema_safeParse ch) as [issues | [key dbg]] eqn:He;
      [discriminate|].
    cbn [fst]. intros [= <-]. exists data. cbn.
    pose proof (proj1 (env_schema_accepts ch key dbg) He) as (_ & _ & ->).
    split; [reflexivity|]. split; [exact Hfile|]. split; reflexivity.
  - intros (data & -> & -> & -> & Hflag). destruct c; cbn in *.
    subst. reflexivity.
Qed.

Lemma loaded_debug_flag (ch : ConfigHost) (c : AppConfig.t) :
  fst (loadConfig ch) = loaded c ->
  AppConfig.debugOpenai c = debug_flag (env_DEBUG_OPENAI ch).
Proof.
  intros Hc. apply loadConfig_loaded in Hc.
  destruct Hc as (data & _ & _ & _ & Hd). exact Hd.
Qed.

(** X13. [loadConfig] returns a configuration exactly when the parsed
    file is an object whose [vectorStoreId] is a string starting with
    "vs_" and the environment holds a non-empty OPENAI_API_KEY; the
    configuration returned is then made of these two values and of the
    debug flag, so a loaded identifier always starts with "vs_" and a
    loaded credential is never empty. *)
Theorem loadConfig_succeeds_iff (ch : ConfigHost) (c : AppConfig.t) :
  fst (loadConfig ch) = loaded c
  <-> exists fields,
        read_and_parse ch = inr (JObject fields)
        /\ property "vectorStoreId" fields
           = Some (JString (AppConfig.vectorStoreId c))
        /\ String.prefix "vs_" (AppConfig.vectorStoreId c) = true
        /\ env_OPENAI_API_KEY ch = Some (AppConfig.openaiApiKey c)
        /\ AppConfig.openaiApiKey c <> ""
        /\ AppConfig.debugOpenai c = debug_flag (env_DEBUG_OPENAI ch).
Proof.
  rewrite loadConfig_loaded. split.
  - intros (data & Hr & Hf & He & Hd).
    apply file_schema_accepts in Hf. destruct Hf as (fields & -> & Hp & Hpre).
    apply env_schema_accepts in He. destruct He as (Hk & Hne & _).
    exists fields. repeat split; assumption.
  - intros (fields & Hr & Hp & Hpre & Hk & Hne & Hd).
    exists (JObject fields). repeat split; try assumption.
    + apply file_schema_accepts. exists fields. repeat split; assumption.
    + apply env_schema_accepts. repeat split; assumption.
Qed.

Lemma loadConfig_file_failure (ch : ConfigHost) (error : Fault)
    (lines : list ConsoleLine) :
  try_load_file ch = (inr error, lines) ->
  loadConfig ch
  = (load_failed ("Failed to load or parse config.json: " ++ message_of error),
     lines ++ [console_error
                 ("Failed to load or parse config.json: " ++ message_of error)]).
Proof.
  intros H. unfold loadConfig. rewrite H. reflexivity.
Qed.

(** X14. The file is checked first and alone: when reading, parsing or
    validating config.json fails, [loadConfig] fails with a message that
    starts with "Failed to load or parse config.json: " and the
    environment is not looked at, so the outcome and the console lines
    are the same whatever the environment holds. A message that starts
    with "Environment variable validation failed: " is produced only
    once the file has passed. *)
Theorem file_errors_come_first (ch : ConfigHost) :
  ((forall id, match read_and_parse ch with
               | inl _ => True
               | inr data => FileConfigSchema_safeParse ch data <> inr id
               end) ->
   (exists m,
       fst (loadConfig ch)
       = load_failed ("Failed to load or parse config.json: " ++ m))
   /\ forall key dbg,
        loadConfig
          {| read_and_parse := read_and_parse ch;
             env_OPENAI_API_KEY := key;
             env_DEBUG_OPENAI := dbg;
             invalid_type := invalid_type ch |}
        = loadConfig ch)
  /\ (forall m,
        fst (loadConfig ch)
        = load_failed ("Environment variable validation failed: " ++ m) ->
        exists data id,
          read_and_parse ch = inr data
          /\ FileConfigSchema_safeParse ch data = inr id
          /\ (env_OPENAI_API_KEY ch = None \/ env_OPENAI_API_KEY ch = Some "")).
Proof.
  split.
  - intros Hbad.
    assert (Hfail : exists error lines,
               try_load_file ch = (inr error, lines)
               /\ forall key dbg,
                    try_load_file
                      {| read_and_parse := read_and_parse ch;
                         env_OPENAI_API_KEY := key;
                         env_DEBUG_OPENAI := dbg;
                         invalid_type := invalid_type ch |}
                    = (inr error, lines)).
    { unfold try_load_file. cbn [read_and_parse].
      destruct (read_and_parse ch) as [thrown | data].
      - eexists. eexists. split; [reflexivity|]. intros; reflexivity.
      - assert (Hsame : forall key dbg,
                   FileConfigSchema_safeParse
                     {| read_and_parse := inr data;
                        env_OPENAI_API_KEY := key;
                        env_DEBUG_OPENAI := dbg;
                        invalid_type := invalid_type ch |} data
                   = FileConfigSchema_safeParse ch data) by reflexivity.
        destruct (FileConfigSchema_safeParse ch data) as [issues | id] eqn:Hf.
        + eexists. eexists. split; [reflexivity|].
          intros key dbg. rewrite Hsame. reflexivity.
        + exfalso. exact (Hbad id eq_refl). }
    destruct Hfail as (error & lines & Htry & Hany).
    split.
    + exists (message_of error).
      rewrite (loadConfig_file_failure ch error lines Htry). reflexivity.
    + intros key dbg.
      rewrite (loadConfig_file_failure _ error lines (Hany key dbg)).
      rewrite (loadConfig_file_failure ch error lines Htry). reflexivity.
  - intros m. unfold loadConfig, try_load_file.
    destruct (read_and_parse ch) as [thrown | data]; [discriminate|].
    destruct (FileConfigSchema_safeParse ch data) as [issues | id] eqn:Hf;
      [discriminate|].
    intros Hm. exists data, id. split; [reflexivity|]. split; [exact Hf|].
    unfold EnvSchema_safeParse in Hm.
    destruct (env_OPENAI_API_KEY ch) as [key|]; [|left; reflexivity].
    destruct (1 <=? String.length key)%nat eqn:Hlen; [discriminate|].
    right. apply length_zero_empty in Hlen. rewrite Hlen. reflexivity.
Qed.

Lemma file_errors_come_first_witness :
  let ch := {| read_and_parse := inr (JObject [("vectorStoreId", JString "store_1")]);
               env_OPENAI_API_KEY := None;
               env_DEBUG_OPENAI := None;
               invalid_type := fun _ _ => "Required" |} in
  exists m,
    fst (loadConfig ch) = load_failed ("Failed to load or parse config.json: " ++ m).
Proof.
  cbv zeta.
  refine (proj1 (proj1 (file_errors_come_first
                          {| read_and_parse :=
                               inr (JObject [("vectorStoreId", JString "store_1")]);
                             env_OPENAI_API_KEY := None;
                             env_DEBUG_OPENAI := None;
                             invalid_type := fun _ _ => "Required" |}) _)).
  intros id. discriminate.
Defined.

(** X15. A config.json that parses but does not fit the schema is
    reported through two layers: the error thrown inside the [try] block
    is caught by the block's own [catch] and wrapped again, so the
    message is "Failed to load or parse config.json: config.json
    validation failed: ..." followed by the issues, and two
    [console.error] lines are written, the inner one first. *)
Theorem schema_failure_is_wrapped_twice
    (ch : ConfigHost) (data : Json) (issues : list Issue) :
  read_and_parse ch = inr data ->
  FileConfigSchema_safeParse ch data = inl issues ->
  loadConfig ch
  = (load_failed
       ("Failed to load or parse config.json: config.json validation failed: "
          ++ format_issues issues),
     [ console_error ("config.json validation failed: " ++ format_issues issues);
       console_error
         ("Failed to load or parse config.json: config.json validation failed: "
            ++ format_issues issues) ]).
Proof.
  intros Hr Hf. unfold loadConfig, try_load_file. rewrite Hr, Hf. reflexivity.
Qed.

Lemma schema_failure_is_wrapped_twice_witness :
  fst (loadConfig
         {| read_and_parse := inr (JObject [("vectorStoreId", JString "store_1")]);
            env_OPENAI_API_KEY := Some "sk-1";
            env_DEBUG_OPENAI := None;
            invalid_type := fun _ _ => "Required" |})
  = load_failed
      "Failed to load or parse config.json: config.json validation failed: vectorStoreId: vectorStoreId in config.json must start with vs_".
Proof.
  exact (f_equal fst
           (schema_failure_is_wrapped_twice
              {| read_and_parse :=
                   inr (JObject [("vectorStoreId", JString "store_1")]);
                 env_OPENAI_API_KEY := Some "sk-1";
                 env_DEBUG_OPENAI := None;
                 invalid_type := fun _ _ => "Required" |}
              (JObject [("vectorStoreId", JString "store_1")])
              [ {| path := ["vectorStoreId"];
                   issue_message :=
                     "vectorStoreId in config.json must start with vs_" |} ]
              eq_refl eq_refl)).
Defined.

Lemma lower_idempotent (c : ascii) : lower (lower c) = lower c.
Proof.
  destruct c as [[] [] [] [] [] [] [] []]; reflexivity.
Qed.

Lemma toLowerCase_idempotent (s : string) :
  toLowerCase (toLowerCase s) = toLowerCase s.
Proof.
  induction s as [|c s IH]; simpl; [reflexivity|].
  rewrite lower_idempotent, IH. reflexivity.
Qed.

Lemma debug_flag_true (dbg : option string) :
  debug_flag dbg = true
  <-> exists v, dbg = Some v
                /\ (toLowerCase v = "true" \/ toLowerCase v = "1").
Proof.
  unfold debug_flag. destruct dbg as [v|]; simpl.
  - rewrite !orb_true_iff, !String.eqb_eq. split.
    + intros [H | [H | H]]; [exists v; tauto | exists v; tauto | discriminate].
    + intros (v' & [= <-] & H). tauto.
  - split; [discriminate|]. intros (v & Hv & _). discriminate Hv.
Qed.

(** X16. The debug flag of a loaded configuration is on exactly when
    DEBUG_OPENAI is set and reads "true" or "1" once its letters are
    lowered: the test ignores case, and an unset or empty variable, or
    any other text, leaves the flag off. Whether the configuration loads
    does not depend on the variable. *)
Theorem debug_flag_ignores_case (ch : ConfigHost) :
  (forall c, fst (loadConfig ch) = loaded c ->
     (AppConfig.debugOpenai c = true
      <-> exists v, env_DEBUG_OPENAI ch = Some v
                    /\ (toLowerCase v = "true" \/ toLowerCase v = "1")))
  /\ (forall v, debug_flag (Some (toLowerCase v)) = debug_flag (Some v))
  /\ debug_flag None = false
  /\ debug_flag (Some "") = false
  /\ (forall dbg,
        (exists c, fst (loadConfig ch) = loaded c)
        <-> exists c,
              fst (loadConfig
                     {| read_and_parse := read_and_parse ch;
                        env_OPENAI_API_KEY := env_OPENAI_API_KEY ch;
                        env_DEBUG_OPENAI := dbg;
                        invalid_type := invalid_type ch |})
              = loaded c).
Proof.
  split; [|split; [|split; [|split]]].
  - intros c Hc. apply loaded_debug_flag in Hc.
    rewrite Hc. apply debug_flag_true.
  - intros v. unfold debug_flag. simpl. rewrite toLowerCase_idempotent.
    reflexivity.
  - reflexivity.
  - reflexivity.
  - intros dbg.
    assert (Hgen : forall ch1 ch2,
               read_and_parse ch1 = read_and_parse ch2 ->
               env_OPENAI_API_KEY ch1 = env_OPENAI_API_KEY ch2 ->
               invalid_type ch1 = invalid_type ch2 ->
               (exists c, fst (loadConfig ch1) = loaded c) ->
               exists c, fst (loadConfig ch2) = loaded c).
    { intros ch1 ch2 Hr Hk Hi [c Hc].
      apply loadConfig_loaded in Hc.
      destruct Hc as (data & Hd & Hf & He & _).
      apply file_schema_accepts in Hf. apply env_schema_accepts in He.
      destruct He as (Hkey & Hne & _).
      exists (AppConfig.mk (AppConfig.vectorStoreId c) (AppConfig.openaiApiKey c)
                (debug_flag (env_DEBUG_OPENAI ch2))).
      apply loadConfig_loaded. exists data. cbn.
      split; [congruence|]. split; [apply file_schema_accepts; exact Hf|].
      split; [|reflexivity].
      apply env_schema_accepts. repeat split; [congruence | exact Hne]. }
    split; apply Hgen; reflexivity.
Qed.

Lemma debug_flag_ignores_case_witness :
  let ch := {| read_and_parse := inr (JObject [("vectorStoreId", JString "vs_1")]);
               env_OPENAI_API_KEY := Some "sk-1";
               env_DEBUG_OPENAI := Some "TrUe";
               invalid_type := fun _ _ => "Required" |} in
  fst (loadConfig ch) = loaded (AppConfig.mk "vs_1" "sk-1" true)
  /\ AppConfig.debugOpenai (AppConfig.mk "vs_1" "sk-1" true) = true.
Proof.
  cbv zeta. split; [reflexivity|].
  refine (proj2 (proj1 (debug_flag_ignores_case
                          {| read_and_parse :=
                               inr (JObject [("vectorStoreId", JString "vs_1")]);
                             env_OPENAI_API_KEY := Some "sk-1";
                             env_DEBUG_OPENAI := Some "TrUe";
                             invalid_type := fun _ _ => "Required" |})
                   (AppConfig.mk "vs_1" "sk-1" true) eq_refl) _).
  exists "TrUe". split; [reflexivity | left; reflexivity].
Defined.

Lemma loadConfig_lines (ch : ConfigHost) :
  match fst (loadConfig ch) with
  | load_failed m =>
      exists before, snd (loadConfig ch) = before ++ [console_error m]
  | loaded _ =>
      List.length (snd (loadConfig ch)) = 4
      /\ existsb is_console_error (snd (loadConfig ch)) = false
      /\ last (snd (loadConfig ch)) (console_log "")
         = console_log "Configuration loaded successfully."
  end.
Proof.
  unfold loadConfig.
  destruct (try_load_file ch) as [[id | error] lines] eqn:Htry.
  - assert (Hl : lines = [console_log "config.json loaded and validated successfully."]).
    { unfold try_load_file in Htry.
      destruct (read_and_parse ch) as [thrown | data]; [discriminate|].
      destruct (FileConfigSchema_safeParse ch data); [discriminate|].
      injection Htry as _ <-. reflexivity. }
    subst lines.
    destruct (EnvSchema_safeParse ch) as [issues | [key dbg]].
    + cbn [fst snd]. eexists. reflexivity.
    + cbn [fst snd]. destruct dbg; repeat split; reflexivity.
  - cbn [fst snd]. exists lines. reflexivity.
Qed.

(** X17. [loadConfig] writes a [console.error] line exactly when it
    throws, and the last line it writes is then the message it throws;
    when it returns a configuration it has written four [console.log]
    lines and no error line, the last being "Configuration loaded
    successfully.". *)
Theorem console_follows_outcome (ch : ConfigHost) :
  ((exists m, fst (loadConfig ch) = load_failed m)
   <-> existsb is_console_error (snd (loadConfig ch)) = true)
  /\ (forall m, fst (loadConfig ch) = load_failed m ->
        last (snd (loadConfig ch)) (console_log "") = console_error m)
  /\ (forall c, fst (loadConfig ch) = loaded c ->
        List.length (snd (loadConfig ch)) = 4
        /\ last (snd (loadConfig ch)) (console_log "")
           = console_log "Configuration loaded successfully.").
Proof.
  pose proof (loadConfig_lines ch) as H.
  destruct (fst (loadConfig ch)) as [c | m].
  - destruct H as (Hlen & Hno & Hlast). split; [|split].
    + split; [intros [m Hm]; discriminate Hm | congruence].
    + intros m Hm. discriminate Hm.
    + intros c' _. split; assumption.
  - destruct H as (before & Hlines). rewrite Hlines. split; [|split].
    + split; [|eauto]. intros _. rewrite existsb_app. simpl.
      apply orb_true_r.
    + intros m' [= <-]. apply last_last.
    + intros c Hc. discriminate Hc.
Qed.

Lemma console_follows_outcome_witness :
  last (snd (loadConfig
               {| read_and_parse := inl (an_error (JsError.mk "Error" "ENOENT" None));
                  env_OPENAI_API_KEY := Some "sk-1";
                  env_DEBUG_OPENAI := None;
                  invalid_type := fun _ _ => "Required" |}))
    (console_log "")
  = console_error "Failed to load or parse config.json: ENOENT".
Proof.
  exact (proj1 (proj2 (console_follows_outcome
                         {| read_and_parse :=
                              inl (an_error (JsError.mk "Error" "ENOENT" None));
                            env_OPENAI_API_KEY := Some "sk-1";
                            env_DEBUG_OPENAI := None;
                            invalid_type := fun _ _ => "Required" |}))
           _ eq_refl).
Defined.

Lemma main_cases (mh : MainHost) :
  match fst (loadConfig (config_host mh)), setup_throws mh, start_rejects mh with
  | load_failed m, _, _ =>
      main mh
      = map main_console (snd (loadConfig (config_host mh)))
          ++ [ main_console (console_error ("Failed to load configuration: " ++ m));
               main_exit 1 ]
  | loaded c, Some error, _ =>
      main mh
      = map main_console (snd (loadConfig (config_host mh)))
          ++ [ main_console
                 (console_error
                    ("Unhandled error in main function: " ++ message_of error));
               main_exit 1 ]
  | loaded c, None, Some error =>
      main mh
      = map main_console (snd (loadConfig (config_host mh)))
          ++ [ main_start c;
               main_console
                 (console_error
                    ("Failed to start FastMCP server: " ++ message_of error));
               main_exit 1 ]
  | loaded c, None, None =>
      exists line,
        main mh
        = map main_console (snd (loadConfig (config_host mh)))
            ++ [ main_start c; main_console (console_log line) ]
  end.
Proof.
  unfold main.
  destruct (loadConfig (config_host mh)) as [[c | m] lines]; cbn [fst snd];
    [|reflexivity].
  destruct (setup_throws mh); [reflexivity|].
  destruct (start_rejects mh); [reflexivity|].
  eexists. reflexivity.
Qed.

Lemma in_map_main_console (lines : list ConsoleLine) (ev : MainEvent) :
  In ev (map main_console lines) -> exists l, ev = main_console l.
Proof.
  intros H. apply in_map_iff in H. destruct H as (l & <- & _). eauto.
Qed.

(** X18. Start-up: the server is started only with a configuration that
    [loadConfig] returned, hence with an identifier starting with "vs_"
    and a non-empty credential, and never after the configuration or the
    set-up failed; the process exits exactly when loading, set-up or
    start fails, always with code 1, and the exit is the last thing it
    does. *)
Theorem main_starts_only_when_configured (mh : MainHost) :
  (forall c, In (main_start c) (main mh) ->
     fst (loadConfig (config_host mh)) = loaded c
     /\ setup_throws mh = None
     /\ String.prefix "vs_" (AppConfig.vectorStoreId c) = true
     /\ AppConfig.openaiApiKey c <> "")
  /\ (forall code, In (main_exit code) (main mh) ->
        code = 1%Z /\ exists before, main mh = before ++ [main_exit 1])
  /\ (In (main_exit 1) (main mh)
      <-> (exists m, fst (loadConfig (config_host mh)) = load_failed m)
          \/ setup_throws mh <> None
          \/ start_rejects mh <> None).
Proof.
  pose proof (main_cases mh) as H.
  pose proof (loadConfig_succeeds_iff (config_host mh)) as Hok.
  destruct (fst (loadConfig (config_host mh))) as [c | m] eqn:Hload.
  - destruct (setup_throws mh) as [e1|] eqn:Hsetup.
    + rewrite H. split; [|split].
      * intros c' Hin. apply in_app_or in Hin. destruct Hin as [Hin|Hin].
        -- apply in_map_main_console in Hin. destruct Hin as [l Hl].
           discriminate Hl.
        -- destruct Hin as [Hin|[Hin|[]]]; discriminate Hin.
      * intros code Hin. apply in_app_or in Hin. destruct Hin as [Hin|Hin].
        -- apply in_map_main_console in Hin. destruct Hin as [l Hl].
           discriminate Hl.
        -- destruct Hin as [Hin|[Hin|[]]]; [discriminate Hin|].
           injection Hin as <-. split; [reflexivity|].
           eexists (_ ++ [_]). rewrite <- app_assoc. reflexivity.
      * split; [intros _; right; left; discriminate|].
        intros _. apply in_or_app. right. right. left. reflexivity.
    + destruct (start_rejects mh) as [e2|] eqn:Hstart.
      * rewrite H. split; [|split].
        -- intros c' Hin. apply in_app_or in Hin. destruct Hin as [Hin|Hin].
           ++ apply in_map_main_console in Hin. destruct Hin as [l Hl].
              discriminate Hl.
           ++ destruct Hin as [Hin|[Hin|[Hin|[]]]]; try discriminate Hin.
              injection Hin as <-.
              destruct (proj1 (Hok c) eq_refl)
                as (fields & _ & _ & Hpre & _ & Hne & _).
              repeat split; assumption.
        -- intros code Hin. apply in_app_or in Hin. destruct Hin as [Hin|Hin].
           ++ apply in_map_main_console in Hin. destruct Hin as [l Hl].
              discriminate Hl.
           ++ destruct Hin as [Hin|[Hin|[Hin|[]]]]; try discriminate Hin.
              injection Hin as <-. split; [reflexivity|].
              eexists (_ ++ [_; _]). rewrite <- app_assoc. reflexivity.
        -- split; [intros _; right; right; discriminate|].
           intros _. apply in_or_app. right. right. right. left. reflexivity.
      * destruct H as [line H]. rewrite H. split; [|split].
        -- intros c' Hin. apply in_app_or in Hin. destruct Hin as [Hin|Hin].
           ++ apply in_map_main_console in Hin. destruct Hin as [l Hl].
              discriminate Hl.
           ++ destruct Hin as [Hin|[Hin|[]]]; try discriminate Hin.
              injection Hin as <-.
              destruct (proj1 (Hok c) eq_refl)
                as (fields & _ & _ & Hpre & _ & Hne & _).
              repeat split; assumption.
        -- intros code Hin. apply in_app_or in Hin. destruct Hin as [Hin|Hin].
           ++ apply in_map_main_console in Hin. destruct Hin as [l Hl].
              discriminate Hl.
           ++ destruct Hin as [Hin|[Hin|[]]]; discriminate Hin.
        -- split.
           ++ intros Hin. apply in_app_or in Hin. destruct Hin as [Hin|Hin].
              ** apply in_map_main_console in Hin. destruct Hin as [l Hl].
                 discriminate Hl.
              ** destruct Hin as [Hin|[Hin|[]]]; discriminate Hin.
           ++ intros [[m Hm] | [Hx | Hx]]; [discriminate Hm | |]; contradiction.
  - rewrite H. split; [|split].
    + intros c' Hin. apply in_app_or in Hin. destruct Hin as [Hin|Hin].
      * apply in_map_main_console in Hin. destruct Hin as [l Hl].
        discriminate Hl.
      * destruct Hin as [Hin|[Hin|[]]]; discriminate Hin.
    + intros code Hin. apply in_app_or in Hin. destruct Hin as [Hin|Hin].
      * apply in_map_main_console in Hin. destruct Hin as [l Hl].
        discriminate Hl.
      * destruct Hin as [Hin|[Hin|[]]]; [discriminate Hin|].
        injection Hin as <-. split; [reflexivity|].
        eexists (_ ++ [_]). rewrite <- app_assoc. reflexivity.
    + split; [intros _; left; eauto|].
      intros _. apply in_or_app. right. right. left. reflexivity.
Qed.

Lemma main_starts_only_when_configured_witness :
  let mh := {| config_host :=
                 {| read_and_parse :=
                      inr (JObject [("vectorStoreId", JString "store_1")]);
                    env_OPENAI_API_KEY := Some "sk-1";
                    env_DEBUG_OPENAI := None;
                    invalid_type := fun _ _ => "Required" |};
               setup_throws := None;
               start_rejects := None |} in
  In (main_exit 1) (main mh)
  /\ exists before, main mh = before ++ [main_exit 1].
Proof.
  cbv zeta.
  pose proof (main_starts_only_when_configured
                {| config_host :=
                     {| read_and_parse :=
                          inr (JObject [("vectorStoreId", JString "store_1")]);
                        env_OPENAI_API_KEY := Some "sk-1";
                        env_DEBUG_OPENAI := None;
                        invalid_type := fun _ _ => "Required" |};
                   setup_throws := None;
                   start_rejects := None |}) as (_ & Hexit & Hiff).
  assert (Hin : In (main_exit 1)
                  (main {| config_host :=
                             {| read_and_parse :=
                                  inr (JObject [("vectorStoreId", JString "store_1")]);
                                env_OPENAI_API_KEY := Some "sk-1";
                                env_DEBUG_OPENAI := None;
                                invalid_type := fun _ _ => "Required" |};
                           setup_throws := None;
                           start_rejects := None |}))
    by (apply Hiff; left; eexists; reflexivity).
  split; [exact Hin | exact (proj2 (Hexit 1%Z Hin))].
Defined.
